(** * estimate_time.py: batch estimation of comprehension times

    A shallow embedding of [estimate_time.py] and the properties of its
    row processor ([process_row]) and batch driver ([process_rows]).

    The script is sequential Python with three kinds of effects: reads and
    writes of files, POST requests to the inference endpoint, and log lines.
    They are modelled by state passing over a [world]; an exception is a
    result of the computation ([Raise]), so that [try]/[except] and
    [sys.exit] read as they do in the source.

    What the model takes from Python and its libraries:
    - a [str] is its UTF-8 bytes ([string]), an [int] is a [Z]; whitespace
      is ASCII whitespace; the limit Python puts on the length of a decimal
      text it converts to or from an [int] (4300 digits) is not modelled, and
      the theorems on such texts state it as a hypothesis;
    - [hashlib.sha256], [json.loads], [int], [str.format] and the line
      format of [csv.writer] are implemented and checked on known values;
      [csv.reader] is not: the world holds the input table already split
      into records;
    - the service, the session and the operator are an oracle: the outcome
      of the k-th request.  An interruption from the keyboard is delivered
      while a request is waited for, where the run spends its time;
    - a file that was opened for writing takes every line written to it;
    - [tqdm], [argparse] and the logging setup are left out: they change
      neither the rows nor their order. *)

From Stdlib Require Import ZArith List Ascii String Lia Bool.
From stdpp Require Import base gmap strings list pretty.
Import ListNotations.

Set Warnings "-register-all".

Local Open Scope string_scope.
Local Open Scope Z_scope.

(* [++] is list concatenation throughout; strings are joined by [+:+]. *)
Disable Notation "x ++ y" : string_scope.

(** ** Exceptions and results *)

(** The exception classes the script can meet.  [KeyboardInterrupt] and
    [SystemExit] derive from [BaseException] only; every other class derives
    from [Exception]. *)
Inductive pyexn : Type :=
  | KeyboardInterrupt
  | SystemExit (code : Z)
  | KeyError (key : string)
  | TypeError
  | ValueError
  | AttributeError
  | OverflowError
  | OSError
  | JSONDecodeError
  | ConnectionError
  | Timeout
  | HTTPError (status : Z).

(** [isinstance(e, Exception)]: what an [except Exception] clause catches. *)
Definition is_Exception (e : pyexn) : bool :=
  match e with
  | KeyboardInterrupt | SystemExit _ => false
  | _ => true
  end.

(** The outcome of evaluating an expression: a value or a raised exception. *)
Inductive res (A : Type) : Type :=
  | Ret (a : A)
  | Raise (e : pyexn).
Arguments Ret {A} a.
Arguments Raise {A} e.

Definition res_bind {A B} (r : res A) (k : A → res B) : res B :=
  match r with
  | Ret a => k a
  | Raise e => Raise e
  end.

(** ** Python values *)

(** A binary64 float as [json.loads] produces it: not-a-number, an
    infinity, or the double nearest to a decimal literal
    [mantissa * 10 ^ exponent]. *)
Inductive pyfloat : Type :=
  | FNaN
  | FInf (negative : bool)
  | FDec (mantissa exponent : Z).

(** The values [json.loads] returns.  A [dict] keeps its keys in insertion
    order, each key once. *)
Inductive pyval : Type :=
  | PNone
  | PBool (b : bool)
  | PInt (z : Z)
  | PFloat (f : pyfloat)
  | PStr (s : string)
  | PList (items : list pyval)
  | PDict (items : list (string * pyval)).

(** A field of a delimited table: what [csv.DictReader] puts in a row
    ([str], or [None] for a column the line is too short for) and what the
    script hands to [csv.writer] ([str], [None] and [int]). *)
Inductive cell : Type :=
  | CNone
  | CStr (s : string)
  | CInt (z : Z).

#[global] Instance pyexn_eq_dec : EqDecision pyexn.
Proof. solve_decision. Defined.
#[global] Instance cell_eq_dec : EqDecision cell.
Proof. solve_decision. Defined.

(** ** [hashlib.sha256]

    SHA-256 (FIPS 180-4) over 32-bit words held in [Z], the wrap-around
    written out. *)
Module Sha256.

Definition w32 (x : Z) : Z := x mod 2 ^ 32.
Definition add32 (x y : Z) : Z := w32 (x + y).
Definition rotr (n x : Z) : Z :=
  Z.lor (Z.shiftr x n) (w32 (Z.shiftl x (32 - n))).
Definition not32 (x : Z) : Z := 2 ^ 32 - 1 - x.

Definition Ch (x y z : Z) : Z := Z.lxor (Z.land x y) (Z.land (not32 x) z).
Definition Maj (x y z : Z) : Z :=
  Z.lxor (Z.lxor (Z.land x y) (Z.land x z)) (Z.land y z).
Definition Sigma0 (x : Z) : Z := Z.lxor (Z.lxor (rotr 2 x) (rotr 13 x)) (rotr 22 x).
Definition Sigma1 (x : Z) : Z := Z.lxor (Z.lxor (rotr 6 x) (rotr 11 x)) (rotr 25 x).
Definition sigma0 (x : Z) : Z := Z.lxor (Z.lxor (rotr 7 x) (rotr 18 x)) (Z.shiftr x 3).
Definition sigma1 (x : Z) : Z := Z.lxor (Z.lxor (rotr 17 x) (rotr 19 x)) (Z.shiftr x 10).

(** The round constants and the initial hash value are the first 32 bits
    of the fractional parts of the cube roots of the first 64 primes, and of
    the square roots of the first 8. *)
Definition is_prime (n : nat) : bool :=
  forallb (λ d, negb (Nat.eqb (n mod d) 0)) (seq 2 (n - 2)).

Definition primes (count : nat) : list Z :=
  map Z.of_nat (firstn count (List.filter is_prime (seq 2 400))).

(** The largest [r + x] with [x < 2 ^ bits] and [(r + x) ^ 3 <= n]. *)
Fixpoint cube_root (bits : nat) (n r : Z) : Z :=
  match bits with
  | O => r
  | S b =>
      let r' := r + 2 ^ Z.of_nat b in
      cube_root b n (if r' * r' * r' <=? n then r' else r)
  end.

Definition K : list Z :=
  Eval vm_compute in
    map (λ p, w32 (cube_root 40 (p * 2 ^ 96) 0)) (primes 64).

Definition H0 : list Z :=
  Eval vm_compute in
    map (λ p, w32 (Z.sqrt (p * 2 ^ 64))) (primes 8).

(** [n] bytes of [x], most significant first. *)
Fixpoint be_bytes (n : nat) (x : Z) : list Z :=
  match n with
  | O => []
  | S n' => be_bytes n' (x / 256) ++ [x mod 256]
  end.

(** The message, a 1 bit, zeros up to 56 bytes modulo 64, and the length
    in bits on 8 bytes. *)
Definition pad (msg : list Z) : list Z :=
  let len := Z.of_nat (length msg) in
  let zeros := Z.to_nat ((55 - len) mod 64) in
  msg ++ [0x80] ++ repeat 0 zeros ++ be_bytes 8 (8 * len).

Fixpoint be_words (fuel : nat) (bytes : list Z) : list Z :=
  match fuel, bytes with
  | S fuel', a :: b :: c :: d :: rest =>
      (((a * 256 + b) * 256 + c) * 256 + d) :: be_words fuel' rest
  | _, _ => []
  end.

(** The message schedule, latest word first: [rev_w] holds W[t-1], W[t-2], ... *)
Fixpoint schedule (n : nat) (rev_w : list Z) : list Z :=
  match n with
  | O => rev_w
  | S n' =>
      let w := add32 (add32 (sigma1 (nth 1 rev_w 0)) (nth 6 rev_w 0))
                     (add32 (sigma0 (nth 14 rev_w 0)) (nth 15 rev_w 0)) in
      schedule n' (w :: rev_w)
  end.

Record regs : Type := Regs { ra : Z; rb : Z; rc : Z; rd : Z; re : Z; rf : Z; rg : Z; rh : Z }.

Definition round (s : regs) (kw : Z * Z) : regs :=
  let t1 := add32 (add32 (add32 (rh s) (Sigma1 (re s))) (Ch (re s) (rf s) (rg s)))
                  (add32 (fst kw) (snd kw)) in
  let t2 := add32 (Sigma0 (ra s)) (Maj (ra s) (rb s) (rc s)) in
  Regs (add32 t1 t2) (ra s) (rb s) (rc s) (add32 (rd s) t1) (re s) (rf s) (rg s).

Definition compress (h : list Z) (block : list Z) : list Z :=
  let w := rev (schedule 48 (rev block)) in
  let s0 := Regs (nth 0 h 0) (nth 1 h 0) (nth 2 h 0) (nth 3 h 0)
                 (nth 4 h 0) (nth 5 h 0) (nth 6 h 0) (nth 7 h 0) in
  let s := fold_left round (combine K w) s0 in
  [ add32 (ra s0) (ra s); add32 (rb s0) (rb s); add32 (rc s0) (rc s);
    add32 (rd s0) (rd s); add32 (re s0) (re s); add32 (rf s0) (rf s);
    add32 (rg s0) (rg s); add32 (rh s0) (rh s) ].

Fixpoint blocks (fuel : nat) (h words : list Z) : list Z :=
  match fuel, words with
  | S fuel', _ :: _ => blocks fuel' (compress h (firstn 16 words)) (skipn 16 words)
  | _, _ => h
  end.

Definition digest (msg : list Z) : list Z :=
  let bytes := pad msg in
  let words := be_words (length bytes) bytes in
  blocks (length words) H0 words.

Definition hex_digit (x : Z) : ascii :=
  nth (Z.to_nat x) (list_ascii_of_string "0123456789abcdef") "0"%char.

Definition hex_byte (x : Z) : string :=
  String (hex_digit (x / 16)) (String (hex_digit (x mod 16)) EmptyString).

Definition hex_word (x : Z) : string :=
  String.concat "" (map hex_byte (be_bytes 4 x)).

Definition bytes_of (s : string) : list Z :=
  map (λ c, Z.of_N (N_of_ascii c)) (list_ascii_of_string s).

(** [hashlib.sha256(b).hexdigest()]. *)
Definition hexdigest (b : string) : string :=
  String.concat "" (map hex_word (digest (bytes_of b))).

End Sha256.

(** ** Text helpers *)

Definition code (c : ascii) : Z := Z.of_N (N_of_ascii c).

Definition is_digit (c : ascii) : bool := (48 <=? code c) && (code c <=? 57).

(** The ASCII characters [str.strip()] removes: tab, line feed, vertical
    tab, form feed, carriage return, the separators 28 to 31, and space. *)
Definition is_space (c : ascii) : bool :=
  ((9 <=? code c) && (code c <=? 13)) || ((28 <=? code c) && (code c <=? 32)).

Fixpoint lstrip (s : string) : string :=
  match s with
  | String c rest => if is_space c then lstrip rest else s
  | EmptyString => EmptyString
  end.

Fixpoint rstrip (s : string) : string :=
  match s with
  | String c rest =>
      match rstrip rest with
      | EmptyString => if is_space c then EmptyString else String c EmptyString
      | rest' => String c rest'
      end
  | EmptyString => EmptyString
  end.

(** [s.strip()]. *)
Definition strip (s : string) : string := rstrip (lstrip s).

(** The longest prefix of decimal digits, and what follows it. *)
Fixpoint take_digits (s : string) : string * string :=
  match s with
  | String c rest =>
      if is_digit c then let (ds, r) := take_digits rest in (String c ds, r)
      else (EmptyString, s)
  | EmptyString => (EmptyString, EmptyString)
  end.

Fixpoint digits_value (acc : Z) (ds : string) : Z :=
  match ds with
  | String c rest => digits_value (10 * acc + (code c - 48)) rest
  | EmptyString => acc
  end.

(** ** Built-in conversions *)

(** The double nearest to [p / q] (ties to even), truncated toward zero;
    [None] when that double is an infinity.  [p] and [q] are positive. *)
Definition round_trunc (p q : Z) : option Z :=
  if 2 * p <? q then Some 0
  else
    let k0 := Z.log2 p - Z.log2 q in
    let below := if 0 <=? k0 then p <? q * 2 ^ k0 else p * 2 ^ (- k0) <? q in
    let k := if below then k0 - 1 else k0 in
    let s := 52 - k in
    let num := if 0 <=? s then p * 2 ^ s else p in
    let den := if 0 <=? s then q else q * 2 ^ (- s) in
    let n0 := num / den in
    let r := num mod den in
    let n := if den <? 2 * r then n0 + 1
             else if den =? 2 * r then n0 + n0 mod 2
             else n0 in
    if (1024 <=? k) || ((k =? 1023) && (n =? 2 ^ 53)) then None
    else Some (if 52 <=? k then n * 2 ^ (k - 52) else n / 2 ^ (52 - k)).

(** [int(f)] for the double nearest to [m * 10 ^ e]. *)
Definition binary64_trunc (m e : Z) : option Z :=
  if m =? 0 then Some 0
  else
    let a := Z.abs m in
    let l := Z.log2 a in
    (* 10 ^ (l / 4) <= a < 10 ^ ((l + 4) / 3): far above the largest
       double, or below one tenth *)
    if 309 <=? l / 4 + e then None
    else if (l + 4) / 3 + e <? 0 then Some 0
    else
      match round_trunc (a * 10 ^ Z.max e 0) (10 ^ Z.max (- e) 0) with
      | Some z => Some (Z.sgn m * z)
      | None => None
      end.

Definition float_to_int (f : pyfloat) : res Z :=
  match f with
  | FNaN => Raise ValueError
  | FInf _ => Raise OverflowError
  | FDec m e =>
      match binary64_trunc m e with
      | Some z => Ret z
      | None => Raise OverflowError
      end
  end.

(** Digits with single underscores between them, as [int(str)] accepts. *)
Fixpoint int_digits (acc : Z) (after_digit : bool) (s : string) : option Z :=
  match s with
  | EmptyString => if after_digit then Some acc else None
  | String c rest =>
      if is_digit c then int_digits (10 * acc + (code c - 48)) true rest
      else if (c =? "_")%char && after_digit then int_digits acc false rest
      else None
  end.

(** [int(s)] for a [str]: optional surrounding whitespace, an optional
    sign, decimal digits. *)
Definition int_of_str (s : string) : res Z :=
  let body := strip s in
  let signed :=
    match body with
    | String c rest =>
        if (c =? "-")%char then (-1, rest)
        else if (c =? "+")%char then (1, rest)
        else (1, body)
    | EmptyString => (1, body)
    end in
  match int_digits 0 false (snd signed) with
  | Some n => Ret (fst signed * n)
  | None => Raise ValueError
  end.

(** The built-in [int(v)]. *)
Definition py_int (v : pyval) : res Z :=
  match v with
  | PInt z => Ret z
  | PBool b => Ret (if b then 1 else 0)
  | PFloat f => float_to_int f
  | PStr s => int_of_str s
  | PNone | PList _ | PDict _ => Raise TypeError
  end.

Fixpoint dict_get (items : list (string * pyval)) (key : string) : option pyval :=
  match items with
  | [] => None
  | (k, v) :: rest => if String.eqb k key then Some v else dict_get rest key
  end.

(** [d[key] = v] on a [dict]: replaces the value of a present key, appends
    a new one. *)
Fixpoint dict_set (items : list (string * pyval)) (key : string) (v : pyval)
  : list (string * pyval) :=
  match items with
  | [] => [(key, v)]
  | (k, v0) :: rest =>
      if String.eqb k key then (k, v) :: rest else (k, v0) :: dict_set rest key v
  end.

(** [v[key]] for a [str] key. *)
Definition subscript (v : pyval) (key : string) : res pyval :=
  match v with
  | PDict items =>
      match dict_get items key with
      | Some x => Ret x
      | None => Raise (KeyError key)
      end
  | _ => Raise TypeError
  end.

(** [v.strip()]. *)
Definition strip_method (v : pyval) : res string :=
  match v with
  | PStr s => Ret (strip s)
  | _ => Raise AttributeError
  end.

(** ** [json.loads]

    The decoder of Python's [json] module: the scanner ([scan_once]) with
    its string, number, array and object readers.  The readers call each
    other on fuel: a unit per call in a chain, and a chain of calls on a
    well-formed text is no longer than the text. *)
Module Json.

Definition dquote : ascii := "034"%char.
Definition backslash : ascii := "092"%char.

Definition is_ws (c : ascii) : bool :=
  (code c =? 32) || (code c =? 9) || (code c =? 10) || (code c =? 13).

Fixpoint skip_ws (s : string) : string :=
  match s with
  | String c rest => if is_ws c then skip_ws rest else s
  | EmptyString => EmptyString
  end.

Definition hex_value (c : ascii) : option Z :=
  let n := code c in
  if (48 <=? n) && (n <=? 57) then Some (n - 48)
  else if (97 <=? n) && (n <=? 102) then Some (n - 87)
  else if (65 <=? n) && (n <=? 70) then Some (n - 55)
  else None.

Definition hex4 (a b c d : ascii) : option Z :=
  match hex_value a, hex_value b, hex_value c, hex_value d with
  | Some x, Some y, Some z, Some t => Some (((x * 16 + y) * 16 + z) * 16 + t)
  | _, _, _, _ => None
  end.

(** A decoded piece of a string literal: a byte copied from the text, or
    the 16-bit unit of a [\uXXXX] escape. *)
Inductive unit16 : Type :=
  | UByte (c : ascii)
  | UCode (cp : Z).

Definition simple_escape (c : ascii) : option ascii :=
  if (c =? dquote)%char then Some dquote
  else if (c =? backslash)%char then Some backslash
  else if (c =? "/")%char then Some "/"%char
  else if (c =? "b")%char then Some "008"%char
  else if (c =? "f")%char then Some "012"%char
  else if (c =? "n")%char then Some "010"%char
  else if (c =? "r")%char then Some "013"%char
  else if (c =? "t")%char then Some "009"%char
  else None.

(** The body of a string literal, after its opening quote, up to the
    closing one (strict mode: a raw control character is an error). *)
Fixpoint scan_units (s : string) : option (list unit16 * string) :=
  match s with
  | EmptyString => None
  | String c rest =>
      if (c =? dquote)%char then Some ([], rest)
      else if (c =? backslash)%char then
        match rest with
        | String e rest1 =>
            if (e =? "u")%char then
              match rest1 with
              | String h1 (String h2 (String h3 (String h4 rest5))) =>
                  match hex4 h1 h2 h3 h4, scan_units rest5 with
                  | Some cp, Some (us, r) => Some (UCode cp :: us, r)
                  | _, _ => None
                  end
              | _ => None
              end
            else
              match simple_escape e, scan_units rest1 with
              | Some x, Some (us, r) => Some (UByte x :: us, r)
              | _, _ => None
              end
        | EmptyString => None
        end
      else if code c <? 32 then None
      else
        match scan_units rest with
        | Some (us, r) => Some (UByte c :: us, r)
        | None => None
        end
  end.

Definition byte (x : Z) : ascii := ascii_of_N (Z.to_N x).

Definition utf8 (cp : Z) : list ascii :=
  if cp <? 0x80 then [byte cp]
  else if cp <? 0x800 then
    [byte (0xC0 + cp / 64); byte (0x80 + cp mod 64)]
  else if cp <? 0x10000 then
    [byte (0xE0 + cp / 4096); byte (0x80 + cp / 64 mod 64); byte (0x80 + cp mod 64)]
  else
    [byte (0xF0 + cp / 262144); byte (0x80 + cp / 4096 mod 64);
     byte (0x80 + cp / 64 mod 64); byte (0x80 + cp mod 64)].

(** A high surrogate directly followed by a low one is a single character. *)
Fixpoint join_units (us : list unit16) : list ascii :=
  match us with
  | [] => []
  | UByte c :: rest => c :: join_units rest
  | UCode hi :: rest =>
      match rest with
      | UCode lo :: rest' =>
          if (0xD800 <=? hi) && (hi <=? 0xDBFF) && (0xDC00 <=? lo) && (lo <=? 0xDFFF)
          then utf8 (0x10000 + (hi - 0xD800) * 1024 + (lo - 0xDC00)) ++ join_units rest'
          else utf8 hi ++ join_units rest
      | _ => utf8 hi ++ join_units rest
      end
  end.

Definition scanstring (s : string) : option (string * string) :=
  match scan_units s with
  | Some (us, rest) => Some (string_of_list_ascii (join_units us), rest)
  | None => None
  end.

(** [s] without its prefix [p], when it starts with [p]. *)
Fixpoint has_prefix (p s : string) : option string :=
  match p, s with
  | EmptyString, _ => Some s
  | String a p', String b s' => if (a =? b)%char then has_prefix p' s' else None
  | String _ _, EmptyString => None
  end.

(** A number: an optional minus, then 0 or a digit string without a
    leading 0, then an optional fraction and an optional exponent; an [int]
    when it has neither. *)
Definition scan_number (s : string) : option (pyval * string) :=
  let '(neg, s1) :=
    match s with
    | String c rest => if (c =? "-")%char then (true, rest) else (false, s)
    | EmptyString => (false, s)
    end in
  let '(ds, s2) :=
    match s1 with
    | String c rest =>
        if (c =? "0")%char then ("0", rest) else take_digits s1
    | EmptyString => (EmptyString, s1)
    end in
  match ds with
  | EmptyString => None
  | _ =>
      let '(frac, s3) :=
        match s2 with
        | String c rest =>
            if (c =? ".")%char then
              match take_digits rest with
              | (EmptyString, _) => (EmptyString, s2)
              | (fd, r) => (fd, r)
              end
            else (EmptyString, s2)
        | EmptyString => (EmptyString, s2)
        end in
      let '(expo, s4) :=
        match s3 with
        | String c rest =>
            if (c =? "e")%char || (c =? "E")%char then
              let '(esign, rest1) :=
                match rest with
                | String c1 r1 =>
                    if (c1 =? "-")%char then (-1, r1)
                    else if (c1 =? "+")%char then (1, r1)
                    else (1, rest)
                | EmptyString => (1, rest)
                end in
              match take_digits rest1 with
              | (EmptyString, _) => (None, s3)
              | (ed, r) => (Some (esign * digits_value 0 ed), r)
              end
            else (None, s3)
        | EmptyString => (None, s3)
        end in
      let sign := if neg then -1 else 1 in
      match frac, expo with
      | EmptyString, None => Some (PInt (sign * digits_value 0 ds), s4)
      | _, _ =>
          let m := digits_value (digits_value 0 ds) frac in
          let e := default 0 expo - Z.of_nat (String.length frac) in
          Some (PFloat (FDec (sign * m) e), s4)
      end
  end.

Definition literal (s : string) : option (pyval * string) :=
  match has_prefix "null" s, has_prefix "true" s, has_prefix "false" s with
  | Some r, _, _ => Some (PNone, r)
  | _, Some r, _ => Some (PBool true, r)
  | _, _, Some r => Some (PBool false, r)
  | _, _, _ =>
      match scan_number s with
      | Some x => Some x
      | None =>
          match has_prefix "NaN" s, has_prefix "Infinity" s, has_prefix "-Infinity" s with
          | Some r, _, _ => Some (PFloat FNaN, r)
          | _, Some r, _ => Some (PFloat (FInf false), r)
          | _, _, Some r => Some (PFloat (FInf true), r)
          | _, _, _ => None
          end
      end
  end.

Fixpoint scan_once (fuel : nat) (s : string) : option (pyval * string) :=
  match fuel with
  | O => None
  | S fuel' =>
      match s with
      | EmptyString => None
      | String c rest =>
          if (c =? dquote)%char then
            match scanstring rest with
            | Some (x, r) => Some (PStr x, r)
            | None => None
            end
          else if (c =? "{")%char then
            match skip_ws rest with
            | String c1 r1 =>
                if (c1 =? "}")%char then Some (PDict [], r1)
                else if (c1 =? dquote)%char then JSONObject fuel' r1 []
                else None
            | EmptyString => None
            end
          else if (c =? "[")%char then
            match skip_ws rest with
            | String c1 r1 =>
                if (c1 =? "]")%char then Some (PList [], r1)
                else JSONArray fuel' (String c1 r1) []
            | EmptyString => None
            end
          else literal s
      end
  end

(** The members of an object, from just after the opening quote of a key. *)
with JSONObject (fuel : nat) (s : string) (pairs : list (string * pyval))
  : option (pyval * string) :=
  match fuel with
  | O => None
  | S fuel' =>
      match scanstring s with
      | None => None
      | Some (key, r) =>
          match skip_ws r with
          | String c1 r1 =>
              if (c1 =? ":")%char then
                match scan_once fuel' (skip_ws r1) with
                | None => None
                | Some (v, r2) =>
                    let pairs' := dict_set pairs key v in
                    match skip_ws r2 with
                    | String c3 r3 =>
                        if (c3 =? "}")%char then Some (PDict pairs', r3)
                        else if (c3 =? ",")%char then
                          match skip_ws r3 with
                          | String c4 r4 =>
                              if (c4 =? dquote)%char then JSONObject fuel' r4 pairs'
                              else None
                          | EmptyString => None
                          end
                        else None
                    | EmptyString => None
                    end
                end
              else None
          | EmptyString => None
          end
      end
  end

(** The items of an array, from the start of an item. *)
with JSONArray (fuel : nat) (s : string) (values : list pyval)
  : option (pyval * string) :=
  match fuel with
  | O => None
  | S fuel' =>
      match scan_once fuel' s with
      | None => None
      | Some (v, r) =>
          match skip_ws r with
          | String c1 r1 =>
              if (c1 =? "]")%char then Some (PList (values ++ [v]), r1)
              else if (c1 =? ",")%char then JSONArray fuel' (skip_ws r1) (values ++ [v])
              else None
          | EmptyString => None
          end
      end
  end.

(** [json.loads(s)]: one value, whitespace around it, nothing else. *)
Definition loads (s : string) : res pyval :=
  match scan_once (S (S (String.length s))) (skip_ws s) with
  | Some (v, rest) =>
      match skip_ws rest with
      | EmptyString => Ret v
      | _ => Raise JSONDecodeError
      end
  | None => Raise JSONDecodeError
  end.

End Json.

(** Apostrophes turned into double quotes: JSON texts are written
    ['{'seconds': 12}'] below. *)
Fixpoint dq (s : string) : string :=
  match s with
  | String c rest => String (if (c =? "'")%char then Json.dquote else c) (dq rest)
  | EmptyString => EmptyString
  end.

(** ** [str.format]

    [template.format(code=code)] for a template whose replacement fields
    are plain names: [{{] and [}}] are literal braces, [{code}] is replaced
    by [code] as it is, any other field name is a [KeyError].  [field] holds
    the name read so far inside a field. *)
Fixpoint format_go (t : string) (field : option string) (code : string) : res string :=
  match t with
  | EmptyString =>
      match field with
      | None => Ret EmptyString
      | Some _ => Raise ValueError
      end
  | String c rest =>
      match field with
      | Some name =>
          if (c =? "}")%char then
            if String.eqb name "code"
            then res_bind (format_go rest None code) (λ s, Ret (code +:+ s))
            else Raise (KeyError name)
          else format_go rest (Some (name +:+ String c EmptyString)) code
      | None =>
          if (c =? "{")%char then
            match rest with
            | String c1 rest1 =>
                if (c1 =? "{")%char
                then res_bind (format_go rest1 None code) (λ s, Ret (String c s))
                else format_go rest (Some EmptyString) code
            | EmptyString => Raise ValueError
            end
          else if (c =? "}")%char then
            match rest with
            | String c1 rest1 =>
                if (c1 =? "}")%char
                then res_bind (format_go rest1 None code) (λ s, Ret (String c s))
                else Raise ValueError
            | EmptyString => Raise ValueError
            end
          else res_bind (format_go rest None code) (λ s, Ret (String c s))
      end
  end.

Definition str_format (template code : string) : res string :=
  format_go template None code.

(** ** [csv]: rows in, lines out *)

Abbreviation row := (gmap string cell).

(** The [dict] of one data line of [csv.DictReader]: the fields under the
    column names, [None] under the names the line is too short for.  (The
    fields a line has too many go under the key [None], which is not a
    [str]; the script never reads it.) *)
Fixpoint dict_row (fieldnames fields : list string) (d : row) : row :=
  match fieldnames with
  | [] => d
  | k :: ks =>
      match fields with
      | v :: vs => dict_row ks vs (<[k := CStr v]> d)
      | [] => dict_row ks [] (<[k := CNone]> d)
      end
  end.

(** [list(csv.DictReader(f))] over the records [csv.reader] splits the file
    into: the first record names the columns, empty records are skipped. *)
Definition DictReader (records : list (list string)) : list row :=
  match records with
  | [] => []
  | fieldnames :: rest =>
      map (λ r, dict_row fieldnames r ∅) (filter (λ r, r ≠ []) rest)
  end.

Definition CR : ascii := "013"%char.
Definition LF : ascii := "010"%char.

(** [str(c)] as [csv.writer] takes it; [None] is the empty string. *)
Definition cell_text (c : cell) : string :=
  match c with
  | CNone => EmptyString
  | CStr s => s
  | CInt z => pretty z
  end.

Definition special (c : ascii) : bool :=
  (c =? ",")%char || (c =? Json.dquote)%char || (c =? CR)%char || (c =? LF)%char.

Fixpoint double_quotes (s : string) : string :=
  match s with
  | String c rest =>
      if (c =? Json.dquote)%char then String c (String c (double_quotes rest))
      else String c (double_quotes rest)
  | EmptyString => EmptyString
  end.

(** A field under [QUOTE_MINIMAL]: quoted when it holds a delimiter, a
    quote or a line break. *)
Definition csv_field (c : cell) : string :=
  let s := cell_text c in
  if existsb special (list_ascii_of_string s)
  then String Json.dquote (double_quotes s) +:+ String Json.dquote EmptyString
  else s.

Definition CRLF : string := String CR (String LF EmptyString).

(** The text [writer.writerow(fields)] writes (the [excel] dialect); a
    single empty field is written quoted. *)
Definition csv_line (fields : list cell) : string :=
  match fields with
  | [c] =>
      if String.eqb (cell_text c) EmptyString
      then String Json.dquote (String Json.dquote CRLF)
      else csv_field c +:+ CRLF
  | _ => String.concat "," (map csv_field fields) +:+ CRLF
  end.

(** ** The world *)

(** A POST request as [session.post(url, json=payload, timeout=timeout)]
    sends it, and what comes back. *)
Record request : Type := Request { url : string; payload : pyval; req_timeout : Z }.
Record response : Type := Response { status_code : Z; text : string }.

(** What [session.post] can raise short of an answer. *)
Inductive transport_error : Type := Refused | TimedOut.

(** The outcome of one request: an answer, an exception of [requests], or
    the operator interrupting the run while it waits. *)
Inductive outcome : Type :=
  | Responds (resp : response)
  | Fails (e : transport_error)
  | Interrupted.

Definition outcome_res (o : outcome) : res response :=
  match o with
  | Responds resp => Ret resp
  | Fails Refused => Raise ConnectionError
  | Fails TimedOut => Raise Timeout
  | Interrupted => Raise KeyboardInterrupt
  end.

(** A file: its text, or a file that cannot be opened or decoded
    (permissions, bytes that are not UTF-8). *)
Inductive file : Type :=
  | Text (content : string)
  | Unreadable.

Inductive level : Type := INFO | ERROR.

(** What a run does to its surroundings, in order. *)
Inductive event : Type :=
  | EvRead (path : string)
  | EvReadTable (path : string)
  | EvOpenWrite (path : string)
  | EvWriteRow (path : string) (fields : list cell)
  | EvPost (rq : request)
  | EvLog (lvl : level) (msg : string) (subject : cell) (exc : option pyexn).

(** - [fs]: the text files, by path (the cached sources, the output table);
    - [tables]: the delimited files as [csv.reader] splits them when the run
      starts, by path; a path without entry cannot be read as a table;
    - [unwritable]: the paths [open(path, "w")] fails on;
    - [service]: the inference endpoint, the [Session] in front of it and the
      operator at the keyboard: the outcome of the [k]-th request of the run;
    - [calls]: the number of requests sent so far;
    - [trace]: the events so far, oldest first. *)
Record world : Type := World {
  fs : gmap string file;
  tables : gmap string (list (list string));
  unwritable : gset string;
  service : nat → request → outcome;
  calls : nat;
  trace : list event;
}.

Definition emit_to (ev : event) (w : world) : world :=
  World (fs w) (tables w) (unwritable w) (service w) (calls w) (trace w ++ [ev]).

Definition set_file (path : string) (f : file) (w : world) : world :=
  World (<[path := f]> (fs w)) (tables w) (unwritable w) (service w) (calls w) (trace w).

Definition count_call (w : world) : world :=
  World (fs w) (tables w) (unwritable w) (service w) (S (calls w)) (trace w).

(** ** Computations *)

(** A statement or expression of the script: from a world to a result and
    the world after it.  The effects of a computation that raises stay. *)
Definition M (A : Type) : Type := world → res A * world.

Definition ret {A} (a : A) : M A := λ w, (Ret a, w).
Definition raise {A} (e : pyexn) : M A := λ w, (Raise e, w).
Definition lift {A} (r : res A) : M A := λ w, (r, w).

Definition bind {A B} (m : M A) (k : A → M B) : M B :=
  λ w, match m w with
       | (Ret a, w') => k a w'
       | (Raise e, w') => (Raise e, w')
       end.

Notation "'let!' x ':=' m 'in' k" := (bind m (λ x, k))
  (at level 10, x name, m at level 100, k at level 200).
Notation "m ';;;' k" := (bind m (λ _, k))
  (at level 100, k at level 200, right associativity).

(** [try: body / except ...]: [handlers e] is the body of the first clause
    that catches [e], if one does. *)
Definition try_ {A} (body : M A) (handlers : pyexn → option (M A)) : M A :=
  λ w, match body w with
       | (Ret a, w') => (Ret a, w')
       | (Raise e, w') =>
           match handlers e with
           | Some h => h w'
           | None => (Raise e, w')
           end
       end.

(** [except Exception as e: handler]. *)
Definition except_Exception {A} (handler : pyexn → M A) (e : pyexn) : option (M A) :=
  if is_Exception e then Some (handler e) else None.

(** [for _ in range(n): s = body(s)]. *)
Fixpoint for_range {S} (n : nat) (body : S → M S) (s : S) : M S :=
  match n with
  | O => ret s
  | S n' => let! s' := body s in for_range n' body s'
  end.

(** [for x in l: body(x)]. *)
Fixpoint for_each {A} (l : list A) (body : A → M unit) : M unit :=
  match l with
  | [] => ret tt
  | x :: rest => body x ;;; for_each rest body
  end.

Definition emit (ev : event) : M unit := λ w, (Ret tt, emit_to ev w).

(** [sys.exit(code)]. *)
Definition sys_exit {A} (code : Z) : M A := raise (SystemExit code).

(** [logger.info(msg, subject)] and [logger.exception(msg, subject, e)]. *)
Definition logger_info (msg : string) (subject : cell) : M unit :=
  emit (EvLog INFO msg subject None).
Definition logger_exception (msg : string) (subject : cell) (e : pyexn) : M unit :=
  emit (EvLog ERROR msg subject (Some e)).

(** [open(path, "r", encoding="utf-8")] and [f.read()] in a [with] block. *)
Definition read_text (path : string) : M string :=
  emit (EvRead path) ;;;
  λ w, match fs w !! path with
       | Some (Text s) => (Ret s, w)
       | Some Unreadable | None => (Raise OSError, w)
       end.

(** [open(path, "r", newline="", encoding="utf-8")] and [csv.reader] over it. *)
Definition read_table (path : string) : M (list (list string)) :=
  emit (EvReadTable path) ;;;
  λ w, match tables w !! path with
       | Some records => (Ret records, w)
       | None => (Raise OSError, w)
       end.

(** [open(path, "w", newline="", encoding="utf-8")]: the file is created
    or emptied. *)
Definition open_write (path : string) : M unit :=
  λ w, if decide (path ∈ unwritable w) then (Raise OSError, w)
       else (Ret tt, emit_to (EvOpenWrite path) (set_file path (Text EmptyString) w)).

Definition content (f : option file) : string :=
  match f with
  | Some (Text s) => s
  | _ => EmptyString
  end.

(** [writer.writerow(fields)] on the writer of the file opened at [path]:
    the line goes after what the file holds.  (Python hands the line to the
    file when the buffer fills or the [with] block closes the file; the model
    writes at once, which is what the file holds once the block is left.) *)
Definition writerow (path : string) (fields : list cell) : M unit :=
  λ w, (Ret tt,
        emit_to (EvWriteRow path fields)
          (set_file path (Text (content (fs w !! path) +:+ csv_line fields)) w)).

(** [session.post(url, json=payload, timeout=timeout)]. *)
Definition session_post (rq : request) : M response :=
  λ w, (outcome_res (service w (calls w) rq), emit_to (EvPost rq) (count_call w)).

(** [resp.raise_for_status()]. *)
Definition raise_for_status (resp : response) : res unit :=
  if (400 <=? status_code resp) && (status_code resp <? 600)
  then Raise (HTTPError (status_code resp))
  else Ret tt.

(** [row[key]]. *)
Definition row_get (r : row) (key : string) : res cell :=
  match r !! key with
  | Some v => Ret v
  | None => Raise (KeyError key)
  end.

(** [v.encode()]: the UTF-8 bytes of a [str]. *)
Definition encode (v : cell) : res string :=
  match v with
  | CStr s => Ret s
  | _ => Raise AttributeError
  end.

(** [dir / name] for a [Path] [dir], given by its text, and a relative
    [name]. *)
Definition path_join (dir name : string) : string := dir +:+ "/" +:+ name.

(** ** The script *)

Definition OLLAMA_URL : string := "http://localhost:11434/api/generate".

(** [PROMPT] (lines 18-34): the text before the replacement field, the
    field, the text after it. *)
Definition PROMPT_head : string :=
"You are simulating a junior developer who has:
- **Basic knowledge of Java (syntax, classes, functions, control structures, basic OOP)**
- **No prior knowledge of Apache Hive or its libraries**

I will give you a piece of Java code that uses Apache Hive.
Estimate, as precisely as possible, how many **seconds** this junior developer would need to fully understand the code.
" +:+ String Json.dquote "Understanding" +:+ String Json.dquote " means:
- They can explain what the code does overall
- They can follow what each class/method does

Here is the code:
```java
".

Definition PROMPT_tail : string :=
"
```

DO NOT GREET, THINK, OR REASON. NO OTHER TEXT.
Return **only** a json object. Do not output anything else.".

Definition PROMPT : string := PROMPT_head +:+ "{code}" +:+ PROMPT_tail.

(** [read_source(path)] (lines 37-43). *)
Definition read_source (path : string) : M string :=
  try_ (read_text path)
    (except_Exception (λ e,
       logger_exception "Error reading source code %s: %s" (CStr path) e ;;;
       sys_exit 1)).

(** [read_input_csv(path)] (lines 46-53). *)
Definition read_input_csv (path : string) : M (list row) :=
  try_ (let! records := read_table path in
        ret (DictReader records))
    (except_Exception (λ e,
       logger_exception "Error reading input CSV %s: %s" (CStr path) e ;;;
       sys_exit 1)).

(** The [payload] of [ask_ollama_via_http] (lines 57-68). *)
Definition ollama_payload (prompt model : string) : pyval :=
  PDict [ ("model", PStr model);
          ("prompt", PStr prompt);
          ("stream", PBool false);
          ("format",
           PDict [ ("type", PStr "object");
                   ("properties", PDict [("seconds", PDict [("type", PStr "integer")])]);
                   ("required", PList [PStr "seconds"]) ]) ].

(** [resp.raise_for_status()], then [resp.json()["response"].strip()]
    (lines 70-71). *)
Definition response_text (resp : response) : res string :=
  res_bind (raise_for_status resp) (λ _,
  res_bind (Json.loads (text resp)) (λ body,
  res_bind (subscript body "response") strip_method)).

(** [ask_ollama_via_http(session, prompt, model, timeout)] (lines 56-71);
    the session is the world's [service]. *)
Definition ask_ollama_via_http (prompt model : string) (timeout : Z) : M string :=
  let payload := ollama_payload prompt model in
  let! resp := session_post (Request OLLAMA_URL payload timeout) in
  lift (response_text resp).

(** [output = json.loads(output_raw.strip())], then [int(output["seconds"])]
    (lines 88-89). *)
Definition parse_seconds (output_raw : string) : res Z :=
  res_bind (Json.loads (strip output_raw)) (λ output,
  res_bind (subscript output "seconds") py_int).

(** One turn of the loop of [process_row] (lines 86-92): the [try]
    statement, from the list [seconds] so far to the list with one more
    result. *)
Definition attempt (r : row) (model : string) (timeout : Z) (code : string)
    (seconds : list Z) : M (list Z) :=
  try_ (let! prompt := lift (str_format PROMPT code) in
        let! output_raw := ask_ollama_via_http prompt model timeout in
        let! n := lift (parse_seconds output_raw) in
        ret (seconds ++ [n]))
    (except_Exception (λ e,
       let! file_path := lift (row_get r "file_path") in
       logger_exception "Unexpected output from model for file %s: %s" file_path e ;;;
       ret (seconds ++ [-1]))).

(** [process_row(row, session, model, timeout, cache_dir, ask_repeats)]
    (lines 74-93). *)
Definition process_row (r : row) (model : string) (timeout : Z)
    (cache_dir : string) (ask_repeats : Z) : M (list Z) :=
  let! file_path := lift (row_get r "file_path") in
  let! bytes := lift (encode file_path) in
  let file_hash := Sha256.hexdigest bytes in
  let! code := read_source (path_join cache_dir (file_hash +:+ ".txt")) in
  for_range (Z.to_nat ask_repeats) (attempt r model timeout code) [].

(** The header line (line 109): the two fixed columns and one per repeat. *)
Definition header (ask_repeats : Z) : list cell :=
  [CStr "file_path"; CStr "our_seconds"]
  ++ map (λ i : nat, CStr ("llm_seconds_" +:+ pretty i)) (seq 0 (Z.to_nat ask_repeats)).

(** The body of the loop over the input rows (lines 112-128). *)
Definition process_one (output_csv : string) (model : string) (timeout : Z)
    (cache_dir : string) (ask_repeats : Z) (r : row) : M unit :=
  let! file_path := lift (row_get r "file_path") in
  try_ (let! seconds := process_row r model timeout cache_dir ask_repeats in
        let! measures := lift (row_get r "measures") in
        writerow output_csv ([file_path; measures] ++ map CInt seconds))
    (λ e,
       match e with
       | KeyboardInterrupt =>
           Some (logger_info "Interrupted at %s" file_path ;;; sys_exit 1)
       | _ =>
           except_Exception (λ e,
             logger_exception "Error processing %s: %s" file_path e ;;;
             sys_exit 1) e
       end).

(** [process_rows(input_csv, output_csv, session, model, timeout, cache_dir,
    ask_repeats)] (lines 96-128).  Leaving the [with] block closes the output
    file, on every way out. *)
Definition process_rows (input_csv output_csv : string) (model : string)
    (timeout : Z) (cache_dir : string) (ask_repeats : Z) : M unit :=
  let! input_rows := read_input_csv input_csv in
  open_write output_csv ;;;
  writerow output_csv (header ask_repeats) ;;;
  for_each input_rows (process_one output_csv model timeout cache_dir ask_repeats).

(** The status the interpreter exits with: 0 when the script returns, the
    code of [sys.exit], 1 after a traceback. *)
Definition exit_status (r : res unit) : Z :=
  match r with
  | Ret _ => 0
  | Raise (SystemExit c) => c
  | Raise KeyboardInterrupt => 130
  | Raise _ => 1
  end.

(** ** Vocabulary of the properties *)

(** The cache file of a row: [cache_dir / f"{file_hash}.txt"]. *)
Definition cache_file (cache_dir file_path : string) : string :=
  path_join cache_dir (Sha256.hexdigest file_path +:+ ".txt").

(** The prompt built from a source text. *)
Definition prompt_of (code : string) : string :=
  PROMPT_head +:+ code +:+ PROMPT_tail.

(** The request of every attempt of a row whose source text is [code]. *)
Definition request_of (model : string) (timeout : Z) (code : string) : request :=
  Request OLLAMA_URL (ollama_payload (prompt_of code) model) timeout.

(** What the [try] body of an attempt evaluates to, given the outcome of
    its request. *)
Definition attempt_value (o : outcome) : res Z :=
  res_bind (outcome_res o) (λ resp,
  res_bind (response_text resp) parse_seconds).

(** The value an attempt appends. *)
Definition recorded (v : res Z) : Z :=
  match v with
  | Ret n => n
  | Raise _ => -1
  end.

(** The events of one attempt of the row [file_path]. *)
Definition attempt_events (rq : request) (file_path : cell) (v : res Z) : list event :=
  EvPost rq ::
  match v with
  | Ret _ => []
  | Raise e =>
      [EvLog ERROR "Unexpected output from model for file %s: %s" file_path (Some e)]
  end.

(** The world after [n] more requests and the events [evs], files untouched. *)
Definition advance (w : world) (n : nat) (evs : list event) : world :=
  World (fs w) (tables w) (unwritable w) (service w) (n + calls w) (trace w ++ evs).

Definition readable (w : world) (path : string) : Prop :=
  ∃ s, fs w !! path = Some (Text s).

(** No request of the run is interrupted from the keyboard. *)
Definition uninterrupted (w : world) : Prop :=
  ∀ k rq, service w k rq ≠ Interrupted.

(** The rows written to [path], in order. *)
Fixpoint lines_written (path : string) (evs : list event) : list (list cell) :=
  match evs with
  | [] => []
  | EvWriteRow p fields :: rest =>
      if String.eqb p path then fields :: lines_written path rest
      else lines_written path rest
  | _ :: rest => lines_written path rest
  end.

(** The requests sent, in order. *)
Fixpoint posts (evs : list event) : list request :=
  match evs with
  | [] => []
  | EvPost rq :: rest => rq :: posts rest
  | _ :: rest => posts rest
  end.

(** The text of a table: its lines, one after the other. *)
Fixpoint csv_text (lines : list (list cell)) : string :=
  match lines with
  | [] => EmptyString
  | fields :: rest => csv_line fields +:+ csv_text rest
  end.

(** The line of a row. *)
Definition output_line (file_path measures : cell) (seconds : list Z) : list cell :=
  [file_path; measures] ++ map CInt seconds.

Arguments Sha256.hexdigest : simpl never.
Arguments Json.loads : simpl never.
Arguments str_format : simpl never.
Arguments py_int : simpl never.
Arguments csv_line : simpl never.
Arguments strip : simpl never.
Arguments response_text : simpl never.
Arguments parse_seconds : simpl never.
Arguments PROMPT : simpl never.
Arguments prompt_of : simpl never.

(** The values of the attempts that use the requests [k], ..., [k + n - 1]
    of the run. *)
Definition attempt_values (w : world) (rq : request) (k n : nat) : list (res Z) :=
  map (λ i, attempt_value (service w i rq)) (seq k n).


(** An event of the loop of attempts: a request, or the log line of a
    failed attempt. *)
Definition quiet (ev : event) : bool :=
  match ev with
  | EvPost _ => true
  | EvLog ERROR msg _ _ => String.eqb msg "Unexpected output from model for file %s: %s"
  | _ => false
  end.

(** The files read, in order. *)
Fixpoint reads (evs : list event) : list string :=
  match evs with
  | [] => []
  | EvRead p :: rest => p :: reads rest
  | _ :: rest => reads rest
  end.

(** The world after [writer.writerow(fields)] on the file at [path]. *)
Definition write_to (path : string) (fields : list cell) (w : world) : world :=
  emit_to (EvWriteRow path fields)
    (set_file path (Text (content (fs w !! path) +:+ csv_line fields)) w).

(** [line] is the output line of the row [r] for [n] repeats: the row's
    [file_path] and [measures] as they are, then [n] integers. *)
Definition line_of_row (n : nat) (r : row) (line : list cell) : Prop :=
  ∃ fp measures seconds,
    r !! "file_path" = Some (CStr fp) ∧
    r !! "measures" = Some measures ∧
    length seconds = n ∧
    line = CStr fp :: measures :: map CInt seconds.

(** From [w] to [w']: the lines [lines] were written after what the file at
    [out] held, and no other file changed. *)
Definition extends_by (out : string) (lines : list (list cell)) (w w' : world) : Prop :=
  content (fs w' !! out) = content (fs w !! out) +:+ csv_text lines ∧
  (∀ p, p ≠ out → fs w' !! p = fs w !! p) ∧
  (readable w out → readable w' out) ∧
  tables w' = tables w ∧ unwritable w' = unwritable w ∧ service w' = service w ∧
  ∃ evs, trace w' = trace w ++ evs ∧ lines_written out evs = lines.

(** The world once the output file is open and holds the header. *)
Definition started (out : string) (n : Z) (w : world) : world :=
  write_to out (header n) (emit_to (EvOpenWrite out) (set_file out (Text "") w)).

(** The run of [process_rows] cut after the first [k] rows of the input. *)
Definition process_first_rows (k : nat) (input_csv output_csv : string) (model : string)
    (timeout : Z) (cache_dir : string) (ask_repeats : Z) : M unit :=
  let! input_rows := read_input_csv input_csv in
  open_write output_csv ;;;
  writerow output_csv (header ask_repeats) ;;;
  for_each (take k input_rows) (process_one output_csv model timeout cache_dir ask_repeats).

(** Every character of [s] satisfies [p]. *)
Fixpoint all_chars (p : ascii → bool) (s : string) : bool :=
  match s with
  | String c rest => p c && all_chars p rest
  | EmptyString => true
  end.

(** A digit of [hexdigest()]. *)
Definition is_hex (c : ascii) : bool :=
  existsb (Ascii.eqb c) (list_ascii_of_string "0123456789abcdef").

(** A character that stands for itself inside a JSON string literal. *)
Definition json_plain (c : ascii) : bool :=
  negb (c =? Json.dquote)%char && negb (c =? Json.backslash)%char && negb (code c <? 32).

(** ** The model at work: the scenarios of the specification *)

(** The body of an answer whose [response] field is the JSON text
    [{"seconds": n}] with a given token for [n]. *)
Definition answer (token : string) : outcome :=
  Responds (Response 200 (dq "{'response': '{\'seconds\': " +:+ token +:+ dq "}'}")).

(** A cache that holds the source of [Foo.java], an input table of one
    row, and a service that answers 10, then 8, then refuses. *)
Definition scenario_A : world :=
  World {[ cache_file "code_cache" "Foo.java" := Text "class Foo {}" ]}
        {[ "in.csv" := [["file_path"; "measures"]; ["Foo.java"; "42"]] ]}
        ∅
        (λ k _, match k with
                | 0%nat => answer "10"
                | 1%nat => answer "8"
                | _ => Fails Refused
                end)
        0 [].

(** Two rows, the cache file of the second one missing. *)
Definition scenario_B : world :=
  World {[ cache_file "code_cache" "Foo.java" := Text "class Foo {}" ]}
        {[ "in.csv" := [["file_path"; "measures"]; ["Foo.java"; "42"]; ["Bar.java"; "7"]] ]}
        ∅
        (λ _ _, answer "10")
        0 [].

(** One row, and a service whose answer is not JSON. *)
Definition scenario_C : world :=
  World {[ cache_file "code_cache" "Foo.java" := Text "class Foo {}" ]}
        {[ "in.csv" := [["file_path"; "measures"]; ["Foo.java"; "42"]] ]}
        ∅
        (λ _ _, Responds (Response 200 (dq "{'response': 'not json'}")))
        0 [].

Definition row_Foo : row := {[ "file_path" := CStr "Foo.java"; "measures" := CStr "42" ]}.

(** The service is down: every request is refused. *)
Definition scenario_down : world :=
  World {[ cache_file "code_cache" "Foo.java" := Text "class Foo {}" ]}
        {[ "in.csv" := [["file_path"; "measures"]; ["Foo.java"; "42"]] ]}
        ∅
        (λ _ _, Fails Refused)
        0 [].

(** The model answers a negative number. *)
Definition scenario_negative : world :=
  World {[ cache_file "code_cache" "Foo.java" := Text "class Foo {}" ]}
        {[ "in.csv" := [["file_path"; "measures"]; ["Foo.java"; "42"]] ]}
        ∅
        (λ _ _, answer "-5")
        0 [].


(** The output of an earlier run is there, the input table is not. *)
Definition scenario_stale : world :=
  World {[ "out.csv" := Text "file_path,our_seconds,llm_seconds_0
Old.java,1,2
" ]}
        ∅ ∅ (λ _ _, answer "10") 0 [].

(** An input table without the column [measures]. *)
Definition scenario_no_measures : world :=
  World {[ cache_file "code_cache" "Foo.java" := Text "class Foo {}" ]}
        {[ "in.csv" := [["file_path"]; ["Foo.java"]] ]}
        ∅
        (λ _ _, answer "10")
        0 [].

(** The operator interrupts the run while it waits for its second answer. *)
Definition scenario_interrupted : world :=
  World {[ cache_file "code_cache" "Foo.java" := Text "class Foo {}" ]}
        {[ "in.csv" := [["file_path"; "measures"]; ["Foo.java"; "42"]] ]}
        ∅
        (λ k _, match k with
                | 0%nat => answer "10"
                | _ => Interrupted
                end)
        0 [].

(** An input table that holds its header and a blank line. *)
Definition scenario_header_only : world :=
  World ∅ {[ "in.csv" := [["file_path"; "measures"]; []] ]} ∅ (λ _ _, answer "10") 0 [].

(** An input table whose path column has another name. *)
Definition scenario_no_file_path : world :=
  World {[ cache_file "code_cache" "Foo.java" := Text "class Foo {}" ]}
        {[ "in.csv" := [["path"; "measures"]; ["Foo.java"; "42"]] ]}
        ∅
        (λ _ _, answer "10")
        0 [].

(** A data line that stops before the column [file_path]. *)
Definition scenario_short_line : world :=
  World {[ cache_file "code_cache" "Foo.java" := Text "class Foo {}" ]}
        {[ "in.csv" := [["measures"; "file_path"]; ["42"]] ]}
        ∅
        (λ _ _, answer "10")
        0 [].

(** The output file cannot be opened for writing. *)
Definition scenario_readonly : world :=
  World {[ cache_file "code_cache" "Foo.java" := Text "class Foo {}" ]}
        {[ "in.csv" := [["file_path"; "measures"]; ["Foo.java"; "42"]] ]}
        {[ "out.csv" ]}
        (λ _ _, answer "10")
        0 [].

(** ** Tactics *)

(** The readers of [Json] on a text known up to a part: the tests on known
    characters are evaluated, the calls on the unknown part are left for
    rewriting. *)
Ltac reduce_bool t :=
  let b := eval vm_compute in t in
  lazymatch b with
  | true => change t with true
  | false => change t with false
  end.

Ltac eval_closed :=
  repeat match goal with
  | |- context [Json.is_ws ?c] => reduce_bool (Json.is_ws c)
  | |- context [is_digit ?c] => reduce_bool (is_digit c)
  | |- context [is_space ?c] => reduce_bool (is_space c)
  | |- context [code ?c <? 32] => reduce_bool (code c <? 32)
  end.

Ltac run_scanner := repeat (progress (cbn; unfold Json.scanstring; eval_closed)).

(** The known characters of a text brought to the front. *)
Ltac expose_text :=
  repeat match goal with
  | |- context [dq ?s] =>
      let x := eval vm_compute in (dq s) in change (dq s) with x
  | |- context [String.append (String ?c ?s) ?t] =>
      change (String.append (String c s) t) with (String c (String.append s t))
  | |- context [String.append EmptyString ?t] =>
      change (String.append EmptyString t) with t
  end.

(** * Properties *)
(** ** The models of the library functions, on known values *)

Example sha256_abc :
  Sha256.hexdigest "abc"
  = "ba7816bf8f01cfea414140de5dae2223b00361a396177a9cb410ff61f20015ad".
Proof. vm_compute. reflexivity. Qed.

Example sha256_empty :
  Sha256.hexdigest ""
  = "e3b0c44298fc1c149afbf4c8996fb92427ae41e4649b934ca495991b7852b855".
Proof. vm_compute. reflexivity. Qed.

Example cache_file_Foo :
  cache_file "code_cache" "Foo.java"
  = "code_cache/d85722b36e339bb4254137d0747507d93a3d39affc81f4d92fa20196d26d66c2.txt".
Proof. vm_compute. reflexivity. Qed.

(** The template is the literal of the source, byte for byte: its digest. *)
Example PROMPT_digest :
  Sha256.hexdigest PROMPT
  = "bdac7ec509fdf45368fdb9d2c2c172dad7832e31f2e927a603b9f44c9229051d".
Proof. vm_compute. reflexivity. Qed.

Example loads_object :
  Json.loads (dq " {'seconds': 12, 'note': [true, null, 'a\u00e9']} ")
  = Ret (PDict [("seconds", PInt 12);
                ("note", PList [PBool true; PNone;
                                PStr (String "a" (String "195" (String "169" "")))])]).
Proof. vm_compute. reflexivity. Qed.

Example loads_trailing_comma : Json.loads (dq "{'seconds': 12,}") = Raise JSONDecodeError.
Proof. vm_compute. reflexivity. Qed.

Example loads_leading_zero : Json.loads "012" = Raise JSONDecodeError.
Proof. vm_compute. reflexivity. Qed.

Example int_of_values :
  map py_int [PInt (-5); PBool true; PStr " 1_000 "; PStr "1.5"; PNone;
              PFloat (FDec 37 (-1)); PFloat (FDec (-37) (-1));
              PFloat (FDec 99999999999999999999 (-20));
              PFloat (FDec 1 400); PFloat FNaN]
  = [Ret (-5); Ret 1; Ret 1000; Raise ValueError; Raise TypeError;
     Ret 3; Ret (-3); Ret 1; Raise OverflowError; Raise ValueError].
Proof. vm_compute. reflexivity. Qed.

Example int_of_1e23 : py_int (PFloat (FDec 1 23)) = Ret 99999999999999991611392.
Proof. vm_compute. reflexivity. Qed.

Example parse_seconds_answers :
  map parse_seconds [dq "{'seconds': 10}"; dq " {'seconds': 3.7}"; dq "{'seconds': true}";
                     dq "{'seconds': null}"; dq "{'minutes': 1}"; dq "[10]"; "not json"]
  = [Ret 10; Ret 3; Ret 1; Raise TypeError; Raise (KeyError "seconds");
     Raise TypeError; Raise JSONDecodeError].
Proof. vm_compute. reflexivity. Qed.

Example csv_line_quotes :
  csv_line [CStr "a,b"; CNone; CInt (-1)]
  = String Json.dquote "a,b" +:+ String Json.dquote ",,-1" +:+ CRLF.
Proof. vm_compute. reflexivity. Qed.

Example DictReader_short_line :
  DictReader [["file_path"; "measures"]; []; ["Foo.java"]]
  = [{[ "file_path" := CStr "Foo.java"; "measures" := CNone ]}].
Proof. vm_compute. reflexivity. Qed.

(** ** The scenarios of the specification *)

(** Scenario A: one row, three repeats, the answers 10 and 8 and a refusal:
    the output row is [Foo.java, 42, 10, 8, -1]. *)
Example scenario_A_output :
  let '(res, w) := process_rows "in.csv" "out.csv" "llama" 180 "code_cache" 3 scenario_A in
  res = Ret tt ∧ exit_status res = 0 ∧
  fs w !! "out.csv"
  = Some (Text (csv_text [header 3; [CStr "Foo.java"; CStr "42"; CInt 10; CInt 8; CInt (-1)]])).
Proof. vm_compute. split_and!; reflexivity. Qed.

(** Scenario B: two rows, the cache file of the second one missing: the
    output holds the first row only, and the exit status is not 0. *)
Example scenario_B_output :
  let '(res, w) := process_rows "in.csv" "out.csv" "llama" 180 "code_cache" 1 scenario_B in
  exit_status res = 1 ∧
  fs w !! "out.csv"
  = Some (Text (csv_text [header 1; [CStr "Foo.java"; CStr "42"; CInt 10]])).
Proof. vm_compute. split_and!; reflexivity. Qed.

(** Scenario C: one repeat, an answer that is not JSON: the value is [-1]. *)
Example scenario_C_output :
  let '(res, w) := process_rows "in.csv" "out.csv" "llama" 180 "code_cache" 1 scenario_C in
  res = Ret tt ∧
  fs w !! "out.csv"
  = Some (Text (csv_text [header 1; [CStr "Foo.java"; CStr "42"; CInt (-1)]])).
Proof. vm_compute. split_and!; reflexivity. Qed.

(** A table without the column [measures]: the three requests of the
    first row are sent, then the lookup fails; the output holds the header
    only. *)
Example no_measures_run :
  let '(res, w) :=
    process_rows "in.csv" "out.csv" "llama" 180 "code_cache" 3 scenario_no_measures in
  exit_status res = 1 ∧
  length (posts (trace w)) = 3%nat ∧
  last (trace w)
  = Some (EvLog ERROR "Error processing %s: %s" (CStr "Foo.java")
            (Some (KeyError "measures"))) ∧
  fs w !! "out.csv" = Some (Text (csv_text [header 3])).
Proof. vm_compute. split_and!; reflexivity. Qed.

(** ** Results and computations *)

Lemma bind_lift {A B} (r : res A) (k : A → M B) w :
  bind (lift r) k w = match r with Ret a => k a w | Raise e => (Raise e, w) end.
Proof. unfold bind, lift. destruct r; reflexivity. Qed.

Lemma advance_advance w n evs m evs' :
  advance (advance w n evs) m evs' = advance w (n + m) (evs ++ evs').
Proof.
  unfold advance; cbn. f_equal; [lia | by rewrite <- app_assoc].
Qed.

Lemma emit_to_after w n evs ev :
  emit_to ev (advance w n evs) = advance w n (evs ++ [ev]).
Proof. unfold emit_to, advance; cbn. by rewrite <- app_assoc. Qed.

Lemma post_advance w rq : emit_to (EvPost rq) (count_call w) = advance w 1 [EvPost rq].
Proof. reflexivity. Qed.

Lemma advance_0_nil w : advance w 0 [] = w.
Proof. destruct w; unfold advance; cbn. by rewrite app_nil_r. Qed.

(** ** The library functions raise ordinary exceptions only *)

Lemma loads_raises s e : Json.loads s = Raise e → e = JSONDecodeError.
Proof.
  unfold Json.loads. destruct (Json.scan_once _ _) as [[v rest]|]; [|congruence].
  destruct (Json.skip_ws rest); congruence.
Qed.

Lemma subscript_raises v key e :
  subscript v key = Raise e → e = KeyError key ∨ e = TypeError.
Proof.
  destruct v; cbn; try (intros [= <-]; by right).
  destruct (dict_get items key); [discriminate|]. intros [= <-]; by left.
Qed.

Lemma py_int_raises v e :
  py_int v = Raise e → e = TypeError ∨ e = ValueError ∨ e = OverflowError.
Proof.
  unfold py_int. destruct v as [| |z|f|s| |]; try discriminate; try (intros [= <-]; auto).
  - destruct f as [| |m x]; cbn; try (intros [= <-]; auto).
    destruct (binary64_trunc m x); [discriminate|]. intros [= <-]; auto.
  - unfold int_of_str. destruct (int_digits _ _ _); [discriminate|]. intros [= <-]; auto.
Qed.

Lemma strip_method_raises v e : strip_method v = Raise e → e = AttributeError.
Proof. destruct v; cbn; congruence. Qed.

Lemma parse_seconds_raises raw e : parse_seconds raw = Raise e → is_Exception e = true.
Proof.
  unfold parse_seconds, res_bind.
  destruct (Json.loads _) as [output|e0] eqn:Hl.
  - destruct (subscript output "seconds") as [v|e1] eqn:Hs.
    + intros [?|[?|?]]%py_int_raises; by subst.
    + intros [= <-]. by apply subscript_raises in Hs as [->| ->].
  - intros [= <-]. by apply loads_raises in Hl as ->.
Qed.

Lemma response_text_raises resp e : response_text resp = Raise e → is_Exception e = true.
Proof.
  unfold response_text, res_bind, raise_for_status.
  destruct (_ && _); [by intros [= <-]|].
  destruct (Json.loads _) as [body|e0] eqn:Hl.
  - destruct (subscript body "response") as [v|e1] eqn:Hs.
    + by intros ->%strip_method_raises.
    + intros [= <-]. by apply subscript_raises in Hs as [->| ->].
  - intros [= <-]. by apply loads_raises in Hl as ->.
Qed.

(** An attempt whose value is not caught by [except Exception] was
    interrupted. *)
Lemma attempt_value_uncaught o e :
  attempt_value o = Raise e → is_Exception e = false → o = Interrupted.
Proof.
  unfold attempt_value, res_bind.
  destruct o as [resp|[]|]; cbn; try (intros [= <-]; discriminate); [|done].
  destruct (response_text resp) as [raw|e0] eqn:Hr.
  - intros ?%parse_seconds_raises; congruence.
  - intros [= <-]. apply response_text_raises in Hr. congruence.
Qed.

(** ** The prompt builder *)

(** [PROMPT.format(code=code)] never raises: it is the head, the source
    text as it is (braces included), and the tail. *)
Lemma PROMPT_format code : str_format PROMPT code = Ret (prompt_of code).
Proof. vm_compute. reflexivity. Qed.

(** ** One attempt *)

(** An attempt sends one request and appends one value: the parsed
    estimate, or [-1] and a log line when the [try] body raised an
    [Exception]; an interruption leaves the loop. *)
Lemma attempt_run r model timeout code seconds w file_path :
  r !! "file_path" = Some file_path →
  attempt r model timeout code seconds w =
    let rq := request_of model timeout code in
    let v := attempt_value (service w (calls w) rq) in
    match v with
    | Ret n => (Ret (seconds ++ [n]), advance w 1 [EvPost rq])
    | Raise e =>
        if is_Exception e
        then (Ret (seconds ++ [-1]), advance w 1 (attempt_events rq file_path v))
        else (Raise e, advance w 1 [EvPost rq])
    end.
Proof.
  intros Hfp. unfold attempt, try_, except_Exception.
  rewrite bind_lift, PROMPT_format.
  unfold ask_ollama_via_http, session_post, bind at 1 2, attempt_value, res_bind; cbn zeta.
  fold (request_of model timeout code).
  destruct (outcome_res _) as [resp|e]; cbn.
  - unfold lift. destruct (response_text resp) as [raw|e]; cbn.
    + destruct (parse_seconds raw) as [n|e]; cbn; [done|].
      destruct (is_Exception e); [|done].
      unfold row_get. rewrite Hfp. cbn. by rewrite post_advance, emit_to_after.
    + destruct (is_Exception e); [|done].
      unfold row_get. rewrite Hfp. cbn. by rewrite post_advance, emit_to_after.
  - destruct (is_Exception e); [|done].
    unfold row_get. rewrite Hfp. cbn. by rewrite post_advance, emit_to_after.
Qed.

(** ** The loop of attempts *)

Lemma attempts_run r model timeout code file_path n :
  r !! "file_path" = Some file_path →
  ∀ seconds w,
  (∀ i, (calls w ≤ i < calls w + n)%nat →
        service w i (request_of model timeout code) ≠ Interrupted) →
  let rq := request_of model timeout code in
  let vs := attempt_values w rq (calls w) n in
  for_range n (attempt r model timeout code) seconds w =
    (Ret (seconds ++ map recorded vs),
     advance w n (flat_map (attempt_events rq file_path) vs)).
Proof.
  intros Hfp. induction n as [|n IH]; intros seconds w Hok; cbn zeta.
  - cbn. by rewrite app_nil_r, advance_0_nil.
  - cbn [for_range]. unfold bind. rewrite (attempt_run _ _ _ _ _ _ _ Hfp). cbn zeta.
    set (rq := request_of model timeout code) in *.
    unfold attempt_values. cbn [seq map flat_map].
    assert (Hint : service w (calls w) rq ≠ Interrupted) by (apply Hok; lia).
    destruct (attempt_value (service w (calls w) rq)) as [v|e] eqn:Hv.
    + rewrite IH by (intros i Hi; cbn in *; apply Hok; lia).
      cbn zeta. unfold attempt_values. cbn [calls advance service].
      rewrite advance_advance, <- app_assoc. cbn. done.
    + destruct (is_Exception e) eqn:He.
      2:{ by apply attempt_value_uncaught in Hv. }
      rewrite IH by (intros i Hi; cbn in *; apply Hok; lia).
      cbn zeta. unfold attempt_values. cbn [calls advance service].
      rewrite advance_advance, <- app_assoc. cbn. done.
Qed.

Lemma lines_written_app path evs evs' :
  lines_written path (evs ++ evs') = lines_written path evs ++ lines_written path evs'.
Proof.
  induction evs as [|ev evs IH]; [done|].
  destruct ev; cbn; rewrite ?IH; try done. by destruct (String.eqb _ _).
Qed.

Lemma posts_app evs evs' : posts (evs ++ evs') = posts evs ++ posts evs'.
Proof. induction evs as [|[] evs IH]; cbn; by rewrite ?IH. Qed.

Lemma quiet_lines_written path evs :
  forallb quiet evs = true → lines_written path evs = [].
Proof.
  induction evs as [|ev evs IH]; [done|]. cbn [forallb].
  intros [Hq Hr]%andb_true_iff. destruct ev; try done; cbn; auto.
Qed.

Lemma quiet_reads evs : forallb quiet evs = true → reads evs = [].
Proof.
  induction evs as [|ev evs IH]; [done|]. cbn [forallb].
  intros [Hq Hr]%andb_true_iff. destruct ev; try done; cbn; auto.
Qed.


(** Whatever the service does, the loop sends the same request at every
    turn, touches no file, and either completes its [n] turns or is
    interrupted. *)
Lemma attempts_any r model timeout code file_path n :
  r !! "file_path" = Some file_path →
  ∀ seconds w, ∃ m evs res,
    for_range n (attempt r model timeout code) seconds w = (res, advance w m evs) ∧
    forallb quiet evs = true ∧
    posts evs = repeat (request_of model timeout code) m ∧
    match res with
    | Ret s => m = n ∧ length s = (length seconds + n)%nat
    | Raise e => e = KeyboardInterrupt ∧ (m ≤ n)%nat ∧
                 ∃ k rq, (calls w ≤ k)%nat ∧ service w k rq = Interrupted
    end.
Proof.
  intros Hfp. induction n as [|n IH]; intros seconds w.
  - exists 0%nat, [], (Ret seconds). cbn. rewrite advance_0_nil. split_and!; auto with lia.
  - cbn [for_range]. unfold bind. rewrite (attempt_run _ _ _ _ _ _ _ Hfp). cbn zeta.
    set (rq := request_of model timeout code) in *.
    destruct (attempt_value (service w (calls w) rq)) as [v|e] eqn:Hv.
    + destruct (IH (seconds ++ [v]) (advance w 1 [EvPost rq])) as (m & evs & res & -> & Hq & Hp & Hres).
      exists (S m), (EvPost rq :: evs), res. rewrite advance_advance. cbn.
      split_and!; [done|done|by rewrite Hp|].
      destruct res as [s|e'].
      * rewrite length_app in Hres. cbn in Hres. split; lia.
      * destruct Hres as (-> & ? & k & rq' & ? & ?). split_and!; [done|lia|].
        exists k, rq'. cbn in *. split; [lia|done].
    + destruct (is_Exception e) eqn:He.
      * destruct (IH (seconds ++ [-1])
          (advance w 1 (attempt_events rq file_path (Raise e))))
          as (m & evs & res & -> & Hq & Hp & Hres).
        exists (S m), (attempt_events rq file_path (Raise e) ++ evs), res.
        rewrite advance_advance. cbn.
        split_and!; [done|done|by rewrite Hp|].
        destruct res as [s|e'].
        -- rewrite length_app in Hres. cbn in Hres. split; lia.
        -- destruct Hres as (-> & ? & k & rq' & ? & ?). split_and!; [done|lia|].
           exists k, rq'. cbn in *. split; [lia|done].
      * exists 1%nat, [EvPost rq], (Raise e).
        pose proof (attempt_value_uncaught _ _ Hv He) as Hi.
        rewrite Hi in Hv. cbn in Hv. injection Hv as <-.
        split_and!; try done; [lia|]. exists (calls w), rq. split; [lia|done].
Qed.

(** ** The row processor *)

Lemma read_source_ok path w code :
  fs w !! path = Some (Text code) →
  read_source path w = (Ret code, advance w 0 [EvRead path]).
Proof.
  intros H. unfold read_source, try_, read_text, bind, emit. cbn. by rewrite H.
Qed.

Lemma read_source_fails path w :
  ¬ readable w path →
  read_source path w =
    (Raise (SystemExit 1),
     advance w 0 [EvRead path;
                  EvLog ERROR "Error reading source code %s: %s" (CStr path) (Some OSError)]).
Proof.
  intros H. unfold read_source, try_, read_text, bind, emit. cbn.
  destruct (fs w !! path) as [[s|]|] eqn:Hp; cbn;
    [destruct H; by exists s| |]; unfold advance, emit_to; cbn; by rewrite <- app_assoc.
Qed.

Lemma process_row_unreadable r model timeout cache_dir ask_repeats w fp :
  r !! "file_path" = Some (CStr fp) →
  ¬ readable w (cache_file cache_dir fp) →
  process_row r model timeout cache_dir ask_repeats w =
    (Raise (SystemExit 1),
     advance w 0 [EvRead (cache_file cache_dir fp);
                  EvLog ERROR "Error reading source code %s: %s"
                    (CStr (cache_file cache_dir fp)) (Some OSError)]).
Proof.
  intros Hfp Hr. unfold process_row, row_get. rewrite Hfp, bind_lift. cbn [encode].
  rewrite bind_lift. cbn zeta. fold (cache_file cache_dir fp).
  unfold bind at 1. by rewrite read_source_fails.
Qed.

(** The run of [process_row] on a row whose source text is [code], when
    none of its requests is interrupted. *)
Lemma process_row_run r model timeout cache_dir ask_repeats w fp code :
  r !! "file_path" = Some (CStr fp) →
  fs w !! cache_file cache_dir fp = Some (Text code) →
  (∀ i, (calls w ≤ i < calls w + Z.to_nat ask_repeats)%nat →
        service w i (request_of model timeout code) ≠ Interrupted) →
  let rq := request_of model timeout code in
  let vs := attempt_values w rq (calls w) (Z.to_nat ask_repeats) in
  process_row r model timeout cache_dir ask_repeats w =
    (Ret (map recorded vs),
     advance w (Z.to_nat ask_repeats)
       (EvRead (cache_file cache_dir fp) :: flat_map (attempt_events rq (CStr fp)) vs)).
Proof.
  intros Hfp Hcode Hok. cbn zeta.
  unfold process_row, row_get. rewrite Hfp, bind_lift. cbn [encode].
  rewrite bind_lift. cbn zeta. fold (cache_file cache_dir fp).
  unfold bind at 1. rewrite (read_source_ok _ _ _ Hcode).
  rewrite (attempts_run _ _ _ _ _ _ Hfp) by done.
  cbn zeta. by rewrite advance_advance.
Qed.

(** The run of [process_row] in any world: the cache file of the row is
    read, and no other; then the source cannot be read and the run exits, or
    the loop of attempts runs, to its end or to an interruption. *)
Lemma process_row_any r model timeout cache_dir ask_repeats w fp :
  r !! "file_path" = Some (CStr fp) →
  ∃ m evs res,
    process_row r model timeout cache_dir ask_repeats w =
      (res, advance w m (EvRead (cache_file cache_dir fp) :: evs)) ∧
    reads evs = [] ∧
    (∀ p, lines_written p evs = []) ∧
    (∀ code, fs w !! cache_file cache_dir fp = Some (Text code) →
             posts evs = repeat (request_of model timeout code) m) ∧
    match res with
    | Ret s => m = Z.to_nat ask_repeats ∧ length s = Z.to_nat ask_repeats ∧
               readable w (cache_file cache_dir fp) ∧ forallb quiet evs = true
    | Raise e =>
        (e = SystemExit 1 ∧ ¬ readable w (cache_file cache_dir fp) ∧ m = 0%nat ∧
         evs = [EvLog ERROR "Error reading source code %s: %s"
                  (CStr (cache_file cache_dir fp)) (Some OSError)]) ∨
        (e = KeyboardInterrupt ∧ (m ≤ Z.to_nat ask_repeats)%nat ∧
         (∃ k rq, service w k rq = Interrupted) ∧ forallb quiet evs = true)
    end.
Proof.
  intros Hfp.
  assert (Hdec : readable w (cache_file cache_dir fp) ∨
                 ¬ readable w (cache_file cache_dir fp)).
  { unfold readable. destruct (fs w !! cache_file cache_dir fp) as [[s|]|];
      [left; by exists s|right; by intros [? ?]|right; by intros [? ?]]. }
  destruct Hdec as [[code Hc]|Hnr].
  - unfold process_row, row_get. rewrite Hfp, bind_lift. cbn [encode].
    rewrite bind_lift. cbn zeta. fold (cache_file cache_dir fp).
    unfold bind at 1. rewrite (read_source_ok _ _ _ Hc).
    destruct (attempts_any r model timeout code _ (Z.to_nat ask_repeats) Hfp []
                (advance w 0 [EvRead (cache_file cache_dir fp)]))
      as (m & evs & res & -> & Hq & Hp & Hres).
    exists m, evs, res. rewrite advance_advance. cbn [Nat.add app].
    split_and!; [done|by apply quiet_reads|by intros; apply quiet_lines_written| |].
    { intros ? Hc'. rewrite Hc in Hc'. by injection Hc' as <-. }
    destruct res as [s|e].
    + destruct Hres as [-> Hl]. split_and!; [done|done|by exists code|done].
    + destruct Hres as (-> & ? & k & rq & ? & ?). right.
      split_and!; [done|done|by exists k, rq|done].
  - exists 0%nat, [EvLog ERROR "Error reading source code %s: %s"
                    (CStr (cache_file cache_dir fp)) (Some OSError)], (Raise (SystemExit 1)).
    rewrite (process_row_unreadable _ _ _ _ _ _ _ Hfp Hnr).
    split_and!; [done|done|done| |by left].
    intros code Hc. destruct Hnr. by exists code.
Qed.

Lemma attempt_values_lookup w rq k n i :
  (i < n)%nat →
  attempt_values w rq k n !! i = Some (attempt_value (service w (k + i)%nat rq)).
Proof.
  intros Hi. unfold attempt_values. rewrite list_lookup_fmap, lookup_seq_lt by done. done.
Qed.

Lemma attempt_values_length w rq k n : length (attempt_values w rq k n) = n.
Proof. unfold attempt_values. by rewrite length_map, length_seq. Qed.



Lemma uninterrupted_range w n rq :
  uninterrupted w → ∀ i, (calls w ≤ i < calls w + n)%nat → service w i rq ≠ Interrupted.
Proof. intros H i _. apply H. Qed.


(** ** Properties of the row processor *)

(** C1. For a row whose cached source is readable, [process_row] returns a
    list of exactly [ask_repeats] results, whatever the outcomes of the
    attempts: answers, refusals, timeouts, texts that do not parse, every
    one of them failing included.  (The count is a number of turns,
    [0 <= ask_repeats]; the operator does not interrupt the run.) *)
Theorem process_row_length r model timeout cache_dir ask_repeats w fp :
  r !! "file_path" = Some (CStr fp) →
  readable w (cache_file cache_dir fp) →
  uninterrupted w →
  0 ≤ ask_repeats →
  ∃ seconds w',
    process_row r model timeout cache_dir ask_repeats w = (Ret seconds, w') ∧
    Z.of_nat (length seconds) = ask_repeats.
Proof.
  intros Hfp [code Hcode] Hun Hn.
  eexists _, _. split.
  - apply (process_row_run _ _ _ _ _ _ _ _ Hfp Hcode). by apply uninterrupted_range.
  - rewrite length_map, attempt_values_length. lia.
Qed.

(** [process_row_length] with the service down: three repeats, three
    refusals, three results. *)
Lemma process_row_length_all_fail :
  ∃ seconds w',
    process_row row_Foo "llama" 180 "code_cache" 3 scenario_down = (Ret seconds, w') ∧
    Z.of_nat (length seconds) = 3.
Proof.
  apply (process_row_length row_Foo "llama" 180 "code_cache" 3 scenario_down "Foo.java").
  - reflexivity.
  - exists "class Foo {}". vm_compute. reflexivity.
  - intros k rq. discriminate.
  - lia.
Defined.



Lemma attempt_value_ret o z :
  attempt_value o = Ret z →
  ∃ resp raw output value,
    o = Responds resp ∧ response_text resp = Ret raw ∧
    Json.loads (strip raw) = Ret output ∧
    subscript output "seconds" = Ret value ∧ py_int value = Ret z.
Proof.
  unfold attempt_value, res_bind at 1.
  destruct o as [resp|[]|]; cbn; try discriminate.
  unfold res_bind at 1. destruct (response_text resp) as [raw|] eqn:Hr; [|discriminate].
  unfold parse_seconds, res_bind.
  destruct (Json.loads (strip raw)) as [output|] eqn:Hl; [|discriminate].
  destruct (subscript output "seconds") as [value|] eqn:Hs; [|discriminate].
  intros Hz. by exists resp, raw, output, value.
Qed.

(** C4, as the code has it.  Every result of a row is either the sentinel
    [-1] or the integer [int(output["seconds"])] read from the answer of its
    attempt, of either sign: nothing keeps a negative estimate out. *)
Theorem attempt_result_is_estimate_or_sentinel
    r model timeout cache_dir ask_repeats w fp code :
  r !! "file_path" = Some (CStr fp) →
  fs w !! cache_file cache_dir fp = Some (Text code) →
  uninterrupted w →
  ∃ seconds w',
    process_row r model timeout cache_dir ask_repeats w = (Ret seconds, w') ∧
    ∀ i z, seconds !! i = Some z →
      z = -1 ∨
      ∃ resp raw output value,
        service w (calls w + i)%nat (request_of model timeout code) = Responds resp ∧
        response_text resp = Ret raw ∧
        Json.loads (strip raw) = Ret output ∧
        subscript output "seconds" = Ret value ∧
        py_int value = Ret z.
Proof.
  intros Hfp Hcode Hun.
  pose proof (process_row_run r model timeout cache_dir ask_repeats w fp code
                Hfp Hcode (uninterrupted_range _ _ _ Hun)) as Hrun.
  cbn zeta in Hrun. eexists _, _. split; [exact Hrun|].
  intros i z Hz. rewrite list_lookup_fmap in Hz.
  destruct (attempt_values _ _ _ _ !! i) as [v|] eqn:Hv; [|discriminate].
  assert (Hi : (i < Z.to_nat ask_repeats)%nat).
  { apply lookup_lt_Some in Hv. by rewrite attempt_values_length in Hv. }
  rewrite attempt_values_lookup in Hv by done. injection Hv as <-.
  cbn in Hz. injection Hz as Hz.
  destruct (attempt_value _) as [n|e] eqn:Hval; cbn in Hz; subst z; [|by left].
  right. by apply attempt_value_ret.
Qed.

(** [attempt_result_is_estimate_or_sentinel] on scenario A. *)
Lemma estimate_or_sentinel_scenario_A :
  ∃ seconds w',
    process_row row_Foo "llama" 180 "code_cache" 3 scenario_A = (Ret seconds, w') ∧
    ∀ i z, seconds !! i = Some z →
      z = -1 ∨
      ∃ resp raw output value,
        service scenario_A (calls scenario_A + i)%nat
          (request_of "llama" 180 "class Foo {}") = Responds resp ∧
        response_text resp = Ret raw ∧
        Json.loads (strip raw) = Ret output ∧
        subscript output "seconds" = Ret value ∧
        py_int value = Ret z.
Proof.
  apply (attempt_result_is_estimate_or_sentinel row_Foo "llama" 180 "code_cache" 3
           scenario_A "Foo.java" "class Foo {}").
  - reflexivity.
  - vm_compute. reflexivity.
  - intros k rq. destruct k as [|[|k]]; discriminate.
Defined.

(** C4 as stated fails: a model that answers [{"seconds": -5}] gets [-5]
    into the output row, which is neither an estimate [>= 0] nor [-1]. *)
Lemma negative_estimate_is_recorded :
  lines_written "out.csv"
    (trace (snd (process_rows "in.csv" "out.csv" "llama" 180 "code_cache" 1
                   scenario_negative)))
  = [header 1; [CStr "Foo.java"; CStr "42"; CInt (-5)]] ∧
  ¬ (0 ≤ -5 ∨ -5 = -1).
Proof. split; [vm_compute; reflexivity | lia]. Qed.




(** C6. The cache file of a row is a function of its [file_path] (and of
    the cache directory) alone: two rows with the same [file_path], in any
    two worlds and under any other settings, read the same file, the one
    named by the hexadecimal SHA-256 digest of the [file_path] (with the
    suffix [.txt]) in the cache directory; [process_row] reads no other. *)
Theorem cache_file_deterministic
    cache_dir fp r1 r2 model1 model2 timeout1 timeout2 repeats1 repeats2 w1 w2 :
  r1 !! "file_path" = Some (CStr fp) →
  r2 !! "file_path" = Some (CStr fp) →
  let path := path_join cache_dir (Sha256.hexdigest fp +:+ ".txt") in
  ∃ m1 evs1 res1 m2 evs2 res2,
    process_row r1 model1 timeout1 cache_dir repeats1 w1 =
      (res1, advance w1 m1 (EvRead path :: evs1)) ∧
    process_row r2 model2 timeout2 cache_dir repeats2 w2 =
      (res2, advance w2 m2 (EvRead path :: evs2)) ∧
    reads evs1 = [] ∧ reads evs2 = [].
Proof.
  intros H1 H2 path.
  destruct (process_row_any r1 model1 timeout1 cache_dir repeats1 w1 fp H1)
    as (m1 & evs1 & res1 & E1 & R1 & _).
  destruct (process_row_any r2 model2 timeout2 cache_dir repeats2 w2 fp H2)
    as (m2 & evs2 & res2 & E2 & R2 & _).
  by exists m1, evs1, res1, m2, evs2, res2.
Qed.

(** [cache_file_deterministic] on two rows for [Foo.java], in two worlds,
    under two models. *)
Lemma cache_file_of_Foo :
  let path := path_join "code_cache" (Sha256.hexdigest "Foo.java" +:+ ".txt") in
  ∃ m1 evs1 res1 m2 evs2 res2,
    process_row row_Foo "llama" 180 "code_cache" 3 scenario_A =
      (res1, advance scenario_A m1 (EvRead path :: evs1)) ∧
    process_row {[ "file_path" := CStr "Foo.java" ]} "mistral" 60 "code_cache" 1
        scenario_down =
      (res2, advance scenario_down m2 (EvRead path :: evs2)) ∧
    reads evs1 = [] ∧ reads evs2 = [].
Proof.
  apply (cache_file_deterministic "code_cache" "Foo.java"
           row_Foo {[ "file_path" := CStr "Foo.java" ]}
           "llama" "mistral" 180 60 3 1 scenario_A scenario_down);
    reflexivity.
Defined.

(** C7. The prompt builder is a total function of the source text,
    [PROMPT.format(code=code)] being the template's head, the text and the
    template's tail; and every request a row sends carries that one prompt
    (with the same model, schema and timeout), however many are sent. *)
Theorem prompt_identical_across_repeats
    r model timeout cache_dir ask_repeats w fp code :
  r !! "file_path" = Some (CStr fp) →
  fs w !! cache_file cache_dir fp = Some (Text code) →
  str_format PROMPT code = Ret (PROMPT_head +:+ code +:+ PROMPT_tail) ∧
  ∃ m evs res,
    process_row r model timeout cache_dir ask_repeats w = (res, advance w m evs) ∧
    posts evs =
      repeat (Request OLLAMA_URL
                (ollama_payload (PROMPT_head +:+ code +:+ PROMPT_tail) model) timeout) m ∧
    (m ≤ Z.to_nat ask_repeats)%nat ∧
    (uninterrupted w → m = Z.to_nat ask_repeats).
Proof.
  intros Hfp Hcode. split; [apply PROMPT_format|].
  destruct (process_row_any r model timeout cache_dir ask_repeats w fp Hfp)
    as (m & evs & res & E & _ & _ & Hp & Hres).
  exists m, (EvRead (cache_file cache_dir fp) :: evs), res.
  split_and!; [done|by apply Hp| |].
  - destruct res as [s|e]; [destruct Hres as [-> _]; lia|].
    destruct Hres as [(_ & _ & -> & _)|(_ & ? & _)]; lia.
  - intros Hun. destruct res as [s|e]; [by destruct Hres|].
    destruct Hres as [(_ & Hnr & _)|(_ & _ & (k & rq & Hk) & _)].
    + destruct Hnr. by exists code.
    + by destruct (Hun k rq).
Qed.

(** [prompt_identical_across_repeats] on scenario A. *)
Lemma prompt_identical_scenario_A :
  str_format PROMPT "class Foo {}" = Ret (PROMPT_head +:+ "class Foo {}" +:+ PROMPT_tail) ∧
  ∃ m evs res,
    process_row row_Foo "llama" 180 "code_cache" 3 scenario_A =
      (res, advance scenario_A m evs) ∧
    posts evs =
      repeat (Request OLLAMA_URL
                (ollama_payload (PROMPT_head +:+ "class Foo {}" +:+ PROMPT_tail) "llama")
                180) m ∧
    (m ≤ Z.to_nat 3)%nat ∧
    (uninterrupted scenario_A → m = Z.to_nat 3).
Proof.
  apply (prompt_identical_across_repeats row_Foo "llama" 180 "code_cache" 3
           scenario_A "Foo.java" "class Foo {}").
  - reflexivity.
  - vm_compute. reflexivity.
Defined.

(** ** The batch driver *)

Lemma str_app_assoc (a b c : string) : (a +:+ b) +:+ c = a +:+ b +:+ c.
Proof.
  induction a as [|x a IH]; [done|].
  change (String x ((a +:+ b) +:+ c) = String x (a +:+ b +:+ c)). by rewrite IH.
Qed.

Lemma str_app_nil_r (a : string) : a +:+ "" = a.
Proof.
  induction a as [|x a IH]; [done|].
  change (String x (a +:+ "") = String x a). by rewrite IH.
Qed.

Lemma csv_text_app l1 l2 : csv_text (l1 ++ l2) = csv_text l1 +:+ csv_text l2.
Proof.
  induction l1 as [|x l1 IH]; [done|].
  change (csv_line x +:+ csv_text (l1 ++ l2) = (csv_line x +:+ csv_text l1) +:+ csv_text l2).
  by rewrite IH, str_app_assoc.
Qed.

Lemma extends_by_refl out w : extends_by out [] w w.
Proof.
  unfold extends_by. cbn [csv_text]. rewrite str_app_nil_r. split_and!; try done.
  exists []. by rewrite app_nil_r.
Qed.

Lemma extends_by_trans out l1 l2 w w1 w2 :
  extends_by out l1 w w1 → extends_by out l2 w1 w2 → extends_by out (l1 ++ l2) w w2.
Proof.
  intros (C1 & F1 & R1 & T1 & U1 & S1 & evs1 & E1 & L1)
         (C2 & F2 & R2 & T2 & U2 & S2 & evs2 & E2 & L2).
  unfold extends_by. split_and!; try congruence.
  - by rewrite C2, C1, csv_text_app, str_app_assoc.
  - intros p Hp. by rewrite F2, F1.
  - auto.
  - exists (evs1 ++ evs2). rewrite E2, E1, <- app_assoc, lines_written_app, L1, L2. done.
Qed.

Lemma extends_by_advance out w m evs :
  lines_written out evs = [] → extends_by out [] w (advance w m evs).
Proof.
  intros H. unfold extends_by, advance.
  cbn [fs tables unwritable service trace csv_text].
  rewrite str_app_nil_r. split_and!; try done.
  by exists evs.
Qed.

Lemma extends_by_write out fields w : extends_by out [fields] w (write_to out fields w).
Proof.
  unfold extends_by, write_to, emit_to, set_file.
  cbn [fs tables unwritable service trace csv_text].
  rewrite lookup_insert_eq, str_app_nil_r.
  split_and!; try done.
  - intros p Hp. by rewrite lookup_insert_ne.
  - intros _. unfold readable. cbn [fs]. rewrite lookup_insert_eq. by eexists.
  - exists [EvWriteRow out fields]. cbn [lines_written]. by rewrite String.eqb_refl.
Qed.

(** The six ways through the body of the loop over the rows. *)
Lemma process_one_no_file_path out model timeout cache_dir n r w :
  r !! "file_path" = None →
  process_one out model timeout cache_dir n r w = (Raise (KeyError "file_path"), w).
Proof. intros H. unfold process_one, row_get. by rewrite H. Qed.

Lemma process_one_not_str out model timeout cache_dir n r w c :
  r !! "file_path" = Some c → (∀ fp, c ≠ CStr fp) →
  process_one out model timeout cache_dir n r w =
    (Raise (SystemExit 1),
     advance w 0 [EvLog ERROR "Error processing %s: %s" c (Some AttributeError)]).
Proof.
  intros H Hc. unfold process_one, try_, process_row, bind, lift, row_get.
  rewrite H. destruct c as [|fp|z]; [|by destruct (Hc fp)|]; reflexivity.
Qed.

Lemma process_one_after_row out model timeout cache_dir n r w fp res w1 :
  r !! "file_path" = Some (CStr fp) →
  process_row r model timeout cache_dir n w = (res, w1) →
  process_one out model timeout cache_dir n r w =
    match res with
    | Ret seconds =>
        match r !! "measures" with
        | Some measures =>
            (Ret tt, write_to out (CStr fp :: measures :: map CInt seconds) w1)
        | None =>
            (Raise (SystemExit 1),
             advance w1 0 [EvLog ERROR "Error processing %s: %s" (CStr fp)
                             (Some (KeyError "measures"))])
        end
    | Raise KeyboardInterrupt =>
        (Raise (SystemExit 1),
         advance w1 0 [EvLog INFO "Interrupted at %s" (CStr fp) None])
    | Raise e =>
        if is_Exception e
        then (Raise (SystemExit 1),
              advance w1 0 [EvLog ERROR "Error processing %s: %s" (CStr fp) (Some e)])
        else (Raise e, w1)
    end.
Proof.
  intros H Hrow. unfold process_one. unfold row_get at 1. rewrite H, bind_lift.
  unfold try_. unfold bind at 1. rewrite Hrow.
  destruct res as [seconds|e].
  - unfold row_get. destruct (r !! "measures") as [measures|]; rewrite bind_lift; [done|].
    done.
  - destruct e; done.
Qed.

(** The body of the loop, in any world: it writes the line of the row and
    goes on, or writes nothing, changes no file, and leaves the loop with
    [SystemExit(1)] (with [KeyError] for a row without [file_path]). *)
Lemma process_one_any out model timeout cache_dir n r w :
  ∃ res w',
    process_one out model timeout cache_dir n r w = (res, w') ∧
    match res with
    | Ret _ => ∃ line, line_of_row (Z.to_nat n) r line ∧ extends_by out [line] w w'
    | Raise e =>
        (e = SystemExit 1 ∨ e = KeyError "file_path") ∧
        fs w' = fs w ∧ extends_by out [] w w'
    end.
Proof.
  destruct (r !! "file_path") as [c|] eqn:Hfp.
  2:{ eexists _, _. split; [by apply process_one_no_file_path|].
      split_and!; [by right|done|apply extends_by_refl]. }
  assert (Hc : (∃ fp, c = CStr fp) ∨ (∀ fp, c ≠ CStr fp))
    by (destruct c; [right|left|right]; eauto; done).
  destruct Hc as [[fp ->]|Hc].
  2:{ eexists _, _. split; [by apply (process_one_not_str _ _ _ _ _ _ _ c)|].
      split_and!; [by left|done|by apply extends_by_advance]. }
  destruct (process_row_any r model timeout cache_dir n w fp Hfp)
    as (m & evs & res & Hrow & _ & Hlw & _ & Hres).
  assert (Hquiet : extends_by out [] w
            (advance w m (EvRead (cache_file cache_dir fp) :: evs)))
    by (apply extends_by_advance; cbn; apply Hlw).
  rewrite (process_one_after_row out _ _ _ _ _ _ fp _ _ Hfp Hrow).
  destruct res as [seconds|e].
  - destruct Hres as (_ & Hlen & _).
    destruct (r !! "measures") as [measures|] eqn:Hm.
    + eexists _, _. split; [done|].
      exists (CStr fp :: measures :: map CInt seconds). split.
      * by exists fp, measures, seconds.
      * apply (extends_by_trans _ [] [_] _ _ _ Hquiet), extends_by_write.
    + eexists _, _. split; [done|]. split_and!; [by left|done|].
      rewrite advance_advance. apply extends_by_advance.
      rewrite (lines_written_app _ (_ :: _)). cbn. by rewrite Hlw.
  - destruct Hres as [(-> & _)|(-> & _)]; cbn [is_Exception].
    + eexists _, _. split; [done|]. split_and!; [by left|done|done].
    + eexists _, _. split; [done|]. split_and!; [by left|done|].
      rewrite advance_advance. apply extends_by_advance.
      rewrite (lines_written_app _ (_ :: _)). cbn. by rewrite Hlw.
Qed.

Lemma for_each_app {A} (l1 l2 : list A) body w :
  for_each (l1 ++ l2) body w =
    match for_each l1 body w with
    | (Ret _, w1) => for_each l2 body w1
    | (Raise e, w1) => (Raise e, w1)
    end.
Proof.
  revert w. induction l1 as [|x l1 IH]; intros w; [done|].
  cbn [app for_each]. unfold bind. destruct (body x w) as [[[]|e] w1]; [apply IH|done].
Qed.

(** The loop over the rows, in any world: the lines of the first [k] rows
    are written after what the output file held, in the order of the rows;
    the loop returns when [k] is the number of rows, and is left at row [k]
    otherwise. *)
Lemma rows_run out model timeout cache_dir n rows :
  ∀ w, ∃ res w' k lines,
    for_each rows (process_one out model timeout cache_dir n) w = (res, w') ∧
    Forall2 (line_of_row (Z.to_nat n)) (take k rows) lines ∧
    extends_by out lines w w' ∧
    match res with
    | Ret _ => k = length rows
    | Raise e => (k < length rows)%nat ∧ (e = SystemExit 1 ∨ e = KeyError "file_path")
    end.
Proof.
  induction rows as [|r rows IH]; intros w.
  - exists (Ret tt), w, 0%nat, []. split_and!; [done|constructor|apply extends_by_refl|done].
  - cbn [for_each]. unfold bind.
    destruct (process_one_any out model timeout cache_dir n r w) as (res & w1 & -> & Hone).
    destruct res as [[]|e].
    + destruct Hone as (line & Hline & Hext).
      destruct (IH w1) as (res & w' & k & lines & -> & Hlines & Hext' & Hres).
      exists res, w', (S k), (line :: lines).
      split_and!; [done|by constructor|by apply (extends_by_trans _ [_] _ _ _ _ Hext)|].
      destruct res; cbn; [lia|]. destruct Hres. split; [lia|done].
    + destruct Hone as (He & _ & Hext).
      exists (Raise e), w1, 0%nat, []. split_and!; [done|constructor|done|cbn; lia|done].
Qed.

(** ** The whole run *)

Lemma read_input_csv_ok input w records :
  tables w !! input = Some records →
  read_input_csv input w = (Ret (DictReader records), advance w 0 [EvReadTable input]).
Proof.
  intros H. unfold read_input_csv, try_, read_table, bind, emit, ret. cbn. by rewrite H.
Qed.

Lemma read_input_csv_fails input w :
  tables w !! input = None →
  read_input_csv input w =
    (Raise (SystemExit 1),
     advance w 0 [EvReadTable input;
                  EvLog ERROR "Error reading input CSV %s: %s" (CStr input) (Some OSError)]).
Proof.
  intros H. unfold read_input_csv, try_, read_table, bind, emit, ret. cbn. rewrite H. cbn.
  unfold advance, emit_to; cbn. by rewrite <- app_assoc.
Qed.

Lemma started_file out n w :
  fs (started out n w) !! out = Some (Text (csv_line (header n))).
Proof.
  unfold started, write_to, emit_to, set_file. cbn [fs].
  by rewrite !lookup_insert_eq.
Qed.

Lemma started_trace out n w :
  trace (started out n w) = trace w ++ [EvOpenWrite out; EvWriteRow out (header n)].
Proof. unfold started, write_to, emit_to, set_file. cbn [trace]. by rewrite <- app_assoc. Qed.

Lemma process_rows_unfold input out model timeout cache_dir n w :
  process_rows input out model timeout cache_dir n w =
    match read_input_csv input w with
    | (Raise e, w1) => (Raise e, w1)
    | (Ret rows, w1) =>
        if decide (out ∈ unwritable w1) then (Raise OSError, w1)
        else for_each rows (process_one out model timeout cache_dir n) (started out n w1)
    end.
Proof.
  unfold process_rows. unfold bind at 1.
  destruct (read_input_csv input w) as [[rows|e] w1]; [|done].
  unfold bind at 1, open_write. destruct (decide _); [done|]. reflexivity.
Qed.

Lemma process_first_rows_unfold k input out model timeout cache_dir n w :
  process_first_rows k input out model timeout cache_dir n w =
    match read_input_csv input w with
    | (Raise e, w1) => (Raise e, w1)
    | (Ret rows, w1) =>
        if decide (out ∈ unwritable w1) then (Raise OSError, w1)
        else for_each (take k rows) (process_one out model timeout cache_dir n)
               (started out n w1)
    end.
Proof.
  unfold process_first_rows. unfold bind at 1.
  destruct (read_input_csv input w) as [[rows|e] w1]; [|done].
  unfold bind at 1, open_write. destruct (decide _); [done|]. reflexivity.
Qed.

(** Once the first [k] rows are done, the run goes on with row [k]. *)
Lemma process_rows_from k input out model timeout cache_dir n w records r w1 :
  tables w !! input = Some records →
  DictReader records !! k = Some r →
  process_first_rows k input out model timeout cache_dir n w = (Ret tt, w1) →
  process_rows input out model timeout cache_dir n w =
    for_each (r :: drop (S k) (DictReader records))
      (process_one out model timeout cache_dir n) w1.
Proof.
  intros Ht Hk. rewrite process_first_rows_unfold, process_rows_unfold.
  rewrite (read_input_csv_ok _ _ _ Ht). destruct (decide _); [done|].
  intros Hpre. rewrite <- (take_drop_middle _ _ _ Hk) at 1.
  by rewrite for_each_app, Hpre.
Qed.

(** The run of a readable table into an output file that can be opened. *)
Lemma process_rows_run input out model timeout cache_dir n w records :
  tables w !! input = Some records →
  out ∉ unwritable w →
  ∃ res w' k lines evs,
    process_rows input out model timeout cache_dir n w = (res, w') ∧
    trace w' = trace w ++ evs ∧
    lines_written out evs = header n :: lines ∧
    fs w' !! out = Some (Text (csv_text (header n :: lines))) ∧
    Forall2 (line_of_row (Z.to_nat n)) (take k (DictReader records)) lines ∧
    match res with
    | Ret _ => k = length (DictReader records)
    | Raise e => (k < length (DictReader records))%nat ∧
                 (e = SystemExit 1 ∨ e = KeyError "file_path")
    end.
Proof.
  intros Ht Hw. rewrite process_rows_unfold, (read_input_csv_ok _ _ _ Ht).
  cbn [unwritable advance]. destruct (decide _) as [|_]; [done|].
  set (w0 := started out n _).
  destruct (rows_run out model timeout cache_dir n (DictReader records) w0)
    as (res & w' & k & lines & -> & Hlines & Hext & Hres).
  destruct Hext as (C & _ & R & _ & _ & _ & evs & E & L).
  exists res, w', k, lines, ([EvReadTable input; EvOpenWrite out; EvWriteRow out (header n)] ++ evs).
  split_and!; [done| | | |done|done].
  - rewrite E. subst w0. rewrite started_trace. cbn [trace advance].
    by rewrite <- !app_assoc.
  - rewrite lines_written_app. cbn [lines_written]. by rewrite String.eqb_refl, L.
  - destruct R as [s Hs]; [eexists; apply started_file|].
    rewrite Hs in *. cbn [content] in C. subst w0. rewrite started_file in C.
    cbn [content] in C. by rewrite C.
Qed.

(** What the output file holds once the first [k] rows are done. *)
Lemma process_first_rows_run k input out model timeout cache_dir n w records w1 :
  tables w !! input = Some records →
  process_first_rows k input out model timeout cache_dir n w = (Ret tt, w1) →
  ∃ lines,
    Forall2 (line_of_row (Z.to_nat n)) (take k (DictReader records)) lines ∧
    fs w1 !! out = Some (Text (csv_text (header n :: lines))).
Proof.
  intros Ht. rewrite process_first_rows_unfold, (read_input_csv_ok _ _ _ Ht).
  destruct (decide _) as [|_]; [done|].
  set (w0 := started out n _). set (rows := take k (DictReader records)).
  destruct (rows_run out model timeout cache_dir n rows w0)
    as (res & w' & k' & lines & -> & Hlines & Hext & Hres).
  intros [= -> ->]. subst k'. rewrite firstn_all in Hlines.
  exists lines. split; [done|].
  destruct Hext as (C & _ & R & _).
  destruct R as [s Hs]; [eexists; apply started_file|].
  rewrite Hs in *. cbn [content] in C. subst w0. rewrite started_file in C.
  cbn [content] in C. by rewrite C.
Qed.

(** ** Properties of the batch driver *)

(** C3. When the run comes to a row whose cached source cannot be read
    (the first [k] rows being done), it exits with the status 1; no line is
    written for the row, nor for those after it; and the files are exactly
    as the rows before left them: the output file holds the header and the
    lines of the [k] rows before, each with its [file_path] and [measures]. *)
Theorem unreadable_source_aborts_run
    k input out model timeout cache_dir n w records r fp w1 :
  tables w !! input = Some records →
  DictReader records !! k = Some r →
  process_first_rows k input out model timeout cache_dir n w = (Ret tt, w1) →
  r !! "file_path" = Some (CStr fp) →
  ¬ readable w1 (cache_file cache_dir fp) →
  ∃ res w2 evs,
    process_rows input out model timeout cache_dir n w = (res, w2) ∧
    res = Raise (SystemExit 1) ∧
    exit_status res ≠ 0 ∧
    trace w2 = trace w1 ++ evs ∧
    lines_written out evs = [] ∧
    fs w2 = fs w1 ∧
    ∃ lines,
      fs w2 !! out = Some (Text (csv_text (header n :: lines))) ∧
      Forall2
        (λ r line, ∃ fp measures seconds,
           r !! "file_path" = Some (CStr fp) ∧
           r !! "measures" = Some measures ∧
           line = output_line (CStr fp) measures seconds)
        (take k (DictReader records)) lines.
Proof.
  intros Ht Hk Hpre Hfp Hnr.
  destruct (process_first_rows_run _ _ _ _ _ _ _ _ _ _ Ht Hpre) as (lines & F & Hout).
  rewrite (process_rows_from _ _ _ _ _ _ _ _ _ _ _ Ht Hk Hpre).
  cbn [for_each]. unfold bind.
  rewrite (process_one_after_row out _ _ _ _ _ _ fp _ _ Hfp
             (process_row_unreadable _ _ _ _ _ _ _ Hfp Hnr)).
  cbn [is_Exception]. eexists _, _, _. split_and!; try done.
  exists lines. split; [done|].
  eapply Forall2_impl; [exact F|].
  intros r' line (fp' & measures & seconds & ? & ? & _ & ->).
  by exists fp', measures, seconds.
Qed.

(** [unreadable_source_aborts_run] on scenario B: the first row is done,
    the cache file of the second one is missing. *)
Lemma unreadable_source_scenario_B :
  ∃ res w2 evs,
    process_rows "in.csv" "out.csv" "llama" 180 "code_cache" 2 scenario_B = (res, w2) ∧
    res = Raise (SystemExit 1) ∧
    exit_status res ≠ 0 ∧
    trace w2 =
      trace (snd (process_first_rows 1 "in.csv" "out.csv" "llama" 180 "code_cache" 2
                    scenario_B)) ++ evs ∧
    lines_written "out.csv" evs = [] ∧
    fs w2 = fs (snd (process_first_rows 1 "in.csv" "out.csv" "llama" 180 "code_cache" 2
                       scenario_B)) ∧
    ∃ lines,
      fs w2 !! "out.csv" = Some (Text (csv_text (header 2 :: lines))) ∧
      Forall2
        (λ r line, ∃ fp measures seconds,
           r !! "file_path" = Some (CStr fp) ∧
           r !! "measures" = Some measures ∧
           line = output_line (CStr fp) measures seconds)
        (take 1 (DictReader
                   [["file_path"; "measures"]; ["Foo.java"; "42"]; ["Bar.java"; "7"]]))
        lines.
Proof.
  apply (unreadable_source_aborts_run 1 "in.csv" "out.csv" "llama" 180 "code_cache" 2
           scenario_B
           [["file_path"; "measures"]; ["Foo.java"; "42"]; ["Bar.java"; "7"]]
           (dict_row ["file_path"; "measures"] ["Bar.java"; "7"] ∅) "Bar.java").
  - reflexivity.
  - reflexivity.
  - vm_compute. reflexivity.
  - vm_compute. reflexivity.
  - intros [s Hs]. vm_compute in Hs. discriminate.
Defined.

(** C8. Every line of the output carries the [file_path] and the
    [measures] of its input row as they are, and the lines follow the rows
    in the order of the input: after the header, the lines written are those
    of the first [k] rows, one each, and of all the rows when the run
    returns. *)
Theorem output_rows_pass_through input out model timeout cache_dir n w records :
  tables w !! input = Some records →
  out ∉ unwritable w →
  ∃ res w' k lines evs,
    process_rows input out model timeout cache_dir n w = (res, w') ∧
    trace w' = trace w ++ evs ∧
    lines_written out evs = header n :: lines ∧
    fs w' !! out = Some (Text (csv_text (header n :: lines))) ∧
    Forall2
      (λ r line, ∃ fp measures seconds,
         r !! "file_path" = Some (CStr fp) ∧
         r !! "measures" = Some measures ∧
         line = output_line (CStr fp) measures seconds)
      (take k (DictReader records)) lines ∧
    (res = Ret tt → k = length (DictReader records)).
Proof.
  intros Ht Hw.
  destruct (process_rows_run input out model timeout cache_dir n w records Ht Hw)
    as (res & w' & k & lines & evs & E & T & L & C & F & Hres).
  exists res, w', k, lines, evs. split_and!; [done|done|done|done| |by intros ->].
  eapply Forall2_impl; [exact F|].
  intros r line (fp & measures & seconds & ? & ? & _ & ->). by exists fp, measures, seconds.
Qed.

(** [output_rows_pass_through] on scenario A. *)
Lemma pass_through_scenario_A :
  ∃ res w' k lines evs,
    process_rows "in.csv" "out.csv" "llama" 180 "code_cache" 3 scenario_A = (res, w') ∧
    trace w' = trace scenario_A ++ evs ∧
    lines_written "out.csv" evs = header 3 :: lines ∧
    fs w' !! "out.csv" = Some (Text (csv_text (header 3 :: lines))) ∧
    Forall2
      (λ r line, ∃ fp measures seconds,
         r !! "file_path" = Some (CStr fp) ∧
         r !! "measures" = Some measures ∧
         line = output_line (CStr fp) measures seconds)
      (take k (DictReader [["file_path"; "measures"]; ["Foo.java"; "42"]])) lines ∧
    (res = Ret tt → k = length (DictReader [["file_path"; "measures"]; ["Foo.java"; "42"]])).
Proof.
  apply (output_rows_pass_through "in.csv" "out.csv" "llama" 180 "code_cache" 3 scenario_A
           [["file_path"; "measures"]; ["Foo.java"; "42"]]).
  - reflexivity.
  - vm_compute. discriminate.
Defined.

(** C9, as the code has it.  A run leaves the output file untouched when
    it fails before opening it (the input table cannot be read, the output
    file cannot be opened); otherwise the file is created anew and holds, at
    the end of the run, the header and the lines written during the run and
    nothing else, whatever it held before.  No run appends to what an earlier
    run wrote. *)
Theorem output_rewritten_or_untouched input out model timeout cache_dir n w :
  ∃ res w' evs,
    process_rows input out model timeout cache_dir n w = (res, w') ∧
    trace w' = trace w ++ evs ∧
    (((tables w !! input = None ∨ out ∈ unwritable w) ∧
      fs w' = fs w ∧ lines_written out evs = [] ∧ exit_status res = 1)
     ∨
     (∃ lines,
        is_Some (tables w !! input) ∧ (out ∉ unwritable w) ∧
        fs w' !! out = Some (Text (csv_text (header n :: lines))) ∧
        lines_written out evs = header n :: lines)).
Proof.
  destruct (tables w !! input) as [records|] eqn:Ht.
  - destruct (decide (out ∈ unwritable w)) as [Hw|Hw].
    + rewrite process_rows_unfold, (read_input_csv_ok _ _ _ Ht).
      cbn [unwritable advance]. destruct (decide _); [|done].
      eexists _, _, _. split_and!; [done|done|]. left. split_and!; [by right|done|done|done].
    + destruct (process_rows_run input out model timeout cache_dir n w records Ht Hw)
        as (res & w' & k & lines & evs & E & T & L & F & _).
      exists res, w', evs. split_and!; [done|done|]. right. by exists lines.
  - rewrite process_rows_unfold, (read_input_csv_fails _ _ Ht).
    eexists _, _, _. split_and!; [done|done|]. left. split_and!; [by left|done|done|done].
Qed.

(** C9 as stated fails: a run that cannot read its input table exits before
    it opens the output file, which still holds what an earlier run wrote,
    and not the header and lines of this run. *)
Lemma stale_output_survives_failed_run :
  fst (process_rows "in.csv" "out.csv" "llama" 180 "code_cache" 1 scenario_stale)
    = Raise (SystemExit 1) ∧
  fs (snd (process_rows "in.csv" "out.csv" "llama" 180 "code_cache" 1 scenario_stale))
    !! "out.csv"
    = fs scenario_stale !! "out.csv" ∧
  lines_written "out.csv"
    (trace (snd (process_rows "in.csv" "out.csv" "llama" 180 "code_cache" 1 scenario_stale)))
    = [] ∧
  fs scenario_stale !! "out.csv" ≠ Some (Text (csv_text [header 1])).
Proof. split_and!; [vm_compute; reflexivity ..|vm_compute; discriminate]. Qed.

(** The loop over the rows, at a row without [measures]. *)
Lemma row_without_measures
    out model timeout cache_dir n r rest w c :
  r !! "file_path" = Some c →
  r !! "measures" = None →
  let failure :=
    EvLog ERROR "Error processing %s: %s" c (Some (KeyError "measures")) in
  ∃ res w' evs,
    for_each (r :: rest) (process_one out model timeout cache_dir n) w = (res, w') ∧
    res = Raise (SystemExit 1) ∧
    exit_status res = 1 ∧
    fs w' = fs w ∧
    trace w' = trace w ++ evs ∧
    lines_written out evs = [] ∧
    (In failure evs →
       ∃ evs0, evs = evs0 ++ [failure] ∧
               length (posts evs0) = Z.to_nat n ∧
               calls w' = (Z.to_nat n + calls w)%nat) ∧
    (∀ fp, c = CStr fp →
       readable w (cache_file cache_dir fp) → uninterrupted w → In failure evs).
Proof.
  intros Hfp Hm failure. cbn [for_each]. unfold bind.
  assert (Hc : (∃ fp, c = CStr fp) ∨ (∀ fp, c ≠ CStr fp))
    by (destruct c; [right|left|right]; eauto; done).
  destruct Hc as [[fp ->]|Hc].
  2:{ rewrite (process_one_not_str _ _ _ _ _ _ _ c Hfp Hc).
      eexists _, _, _. split_and!; [done|done|done|done|done|done| |].
      - intros [?|[]]. discriminate.
      - intros fp ->. by destruct (Hc fp). }
  destruct (process_row_any r model timeout cache_dir n w fp Hfp)
    as (m & evs & res & Hrow & _ & Hlw & Hposts & Hres).
  rewrite (process_one_after_row out _ _ _ _ _ _ fp _ _ Hfp Hrow), Hm.
  assert (Hnot : ∀ l, forallb quiet l = true → ¬ In failure l).
  { intros l Hl Hin. rewrite forallb_forall in Hl. by apply Hl in Hin. }
  destruct res as [seconds|e].
  - destruct Hres as (-> & _ & [code Hcode] & Hq).
    rewrite advance_advance.
    eexists _, _, _. split_and!; [done|done|done|done|done| | |].
    + rewrite (lines_written_app _ (_ :: _)). cbn. by rewrite Hlw.
    + intros _. eexists. split; [done|]. split; [|cbn; lia].
      cbn [posts]. by rewrite (Hposts _ Hcode), repeat_length.
    + intros _ _ _ _. apply in_or_app. right. by left.
  - destruct Hres as [(-> & Hnr & -> & ->)|(-> & _ & (k & rq & Hk) & Hq)];
      cbn [is_Exception]; [|rewrite advance_advance];
      (eexists _, _, _; split_and!; [done|done|done|done|done| | |]).
    + done.
    + intros [?|[?|[]]]; discriminate.
    + intros ? [= <-] Hr. by destruct Hnr.
    + rewrite (lines_written_app _ (_ :: _)). cbn. by rewrite Hlw.
    + intros [?|Hin]; [discriminate|].
      apply in_app_or in Hin as [Hin|[?|[]]]; [by apply Hnot in Hin|discriminate].
    + intros _ _ _ Hun. by destruct (Hun k rq).
Qed.

(** C10. When the run comes to a row with a [file_path] and without
    [measures] (the first [k] rows being done), it exits with the status 1
    and writes no line for the row.  The lookup of [measures] is what fails
    exactly when the error logged is [KeyError('measures')]: it is then the
    last event of the run, and every one of the [ask_repeats] requests of the
    row has been sent before it.  It is so whenever the source of the row is
    readable and no request is interrupted; otherwise the run exits earlier,
    on the source or on the interruption. *)
Theorem missing_measures_fails_after_attempts
    k input out model timeout cache_dir n w records r c w1 :
  tables w !! input = Some records →
  DictReader records !! k = Some r →
  process_first_rows k input out model timeout cache_dir n w = (Ret tt, w1) →
  r !! "file_path" = Some c →
  r !! "measures" = None →
  let failure :=
    EvLog ERROR "Error processing %s: %s" c (Some (KeyError "measures")) in
  ∃ res w2 evs,
    process_rows input out model timeout cache_dir n w = (res, w2) ∧
    res = Raise (SystemExit 1) ∧
    exit_status res = 1 ∧
    fs w2 = fs w1 ∧
    trace w2 = trace w1 ++ evs ∧
    lines_written out evs = [] ∧
    (In failure evs →
       ∃ evs0, evs = evs0 ++ [failure] ∧
               length (posts evs0) = Z.to_nat n ∧
               calls w2 = (Z.to_nat n + calls w1)%nat) ∧
    (∀ fp, c = CStr fp →
       readable w1 (cache_file cache_dir fp) → uninterrupted w1 → In failure evs).
Proof.
  intros Ht Hk Hpre Hfp Hm.
  rewrite (process_rows_from _ _ _ _ _ _ _ _ _ _ _ Ht Hk Hpre).
  by apply row_without_measures.
Qed.

(** [missing_measures_fails_after_attempts] on a table without the column
    [measures]: its first row. *)
Lemma missing_measures_scenario :
  let w1 := snd (process_first_rows 0 "in.csv" "out.csv" "llama" 180 "code_cache" 3
                   scenario_no_measures) in
  let failure :=
    EvLog ERROR "Error processing %s: %s" (CStr "Foo.java") (Some (KeyError "measures")) in
  ∃ res w2 evs,
    process_rows "in.csv" "out.csv" "llama" 180 "code_cache" 3 scenario_no_measures
      = (res, w2) ∧
    res = Raise (SystemExit 1) ∧
    exit_status res = 1 ∧
    fs w2 = fs w1 ∧
    trace w2 = trace w1 ++ evs ∧
    lines_written "out.csv" evs = [] ∧
    (In failure evs →
       ∃ evs0, evs = evs0 ++ [failure] ∧
               length (posts evs0) = Z.to_nat 3 ∧
               calls w2 = (Z.to_nat 3 + calls w1)%nat) ∧
    (∀ fp, CStr "Foo.java" = CStr fp →
       readable w1 (cache_file "code_cache" fp) → uninterrupted w1 → In failure evs).
Proof.
  apply (missing_measures_fails_after_attempts 0 "in.csv" "out.csv" "llama" 180
           "code_cache" 3 scenario_no_measures [["file_path"]; ["Foo.java"]]
           (dict_row ["file_path"] ["Foo.java"] ∅) (CStr "Foo.java")).
  - reflexivity.
  - reflexivity.
  - vm_compute. reflexivity.
  - vm_compute. reflexivity.
  - vm_compute. reflexivity.
Defined.

(** ** Further properties of the run *)


Lemma header_length n : length (header n) = (2 + Z.to_nat n)%nat.
Proof. unfold header. by rewrite length_app, length_map, length_seq. Qed.

(** The output table is rectangular: the header and every line written
    have two fields and one per repeat. *)
Theorem output_lines_rectangular input out model timeout cache_dir n w records :
  tables w !! input = Some records →
  (out ∉ unwritable w) →
  Forall (λ line : list cell, length line = (2 + Z.to_nat n)%nat)
    (lines_written out
       (drop (length (trace w))
          (trace (snd (process_rows input out model timeout cache_dir n w))))).
Proof.
  intros Ht Hw.
  destruct (process_rows_run input out model timeout cache_dir n w records Ht Hw)
    as (res & w' & k & lines & evs & -> & T & L & _ & F & _).
  cbn [snd]. rewrite T, drop_app_length, L.
  constructor; [apply header_length|].
  clear -F. induction F as [|r line rows lines (fp & m & seconds & _ & _ & Hl & ->) _ IH];
    constructor; [|done].
  cbn. by rewrite length_map, Hl.
Qed.

(** [output_lines_rectangular] on scenario A. *)
Lemma rectangular_scenario_A :
  Forall (λ line : list cell, length line = (2 + Z.to_nat 3)%nat)
    (lines_written "out.csv"
       (drop (length (trace scenario_A))
          (trace (snd (process_rows "in.csv" "out.csv" "llama" 180 "code_cache" 3
                         scenario_A))))).
Proof.
  apply (output_lines_rectangular "in.csv" "out.csv" "llama" 180 "code_cache" 3 scenario_A
           [["file_path"; "measures"]; ["Foo.java"; "42"]]).
  - reflexivity.
  - vm_compute. discriminate.
Defined.

(** ** The input table *)

Lemma DictReader_blank records :
  Forall (λ line : list string, line = []) (tail records) → DictReader records = [].
Proof.
  destruct records as [|fieldnames lines]; [done|]. cbn [tail DictReader]. intros H.
  induction H as [|line lines -> _ IH]; [done|].
  by rewrite filter_cons_False by (by intros ?).
Qed.

Lemma dict_row_lookup_other fieldnames : ∀ fields d k,
  k ∉ fieldnames → dict_row fieldnames fields d !! k = d !! k.
Proof.
  induction fieldnames as [|f fs IH]; intros fields d k Hk; [done|].
  apply not_elem_of_cons in Hk as [Hne Hk].
  destruct fields as [|v vs]; cbn [dict_row]; rewrite IH by done;
    by rewrite lookup_insert_ne.
Qed.

(** A line that stops before the last column named [k] has [None] there. *)
Lemma dict_row_short fieldnames : ∀ fields d i k,
  fieldnames !! i = Some k →
  k ∉ drop (S i) fieldnames →
  (length fields ≤ i)%nat →
  dict_row fieldnames fields d !! k = Some CNone.
Proof.
  induction fieldnames as [|f fs IH]; intros fields d i k Hi Hk Hlen; [done|].
  destruct i as [|i].
  - cbn in Hi. injection Hi as ->. cbn [drop] in Hk.
    destruct fields as [|v vs]; [|cbn in Hlen; lia]. cbn [dict_row].
    by rewrite dict_row_lookup_other, lookup_insert_eq.
  - cbn in Hi. cbn [drop] in Hk.
    destruct fields as [|v vs]; cbn [dict_row].
    + apply (IH [] _ i); [done|done|cbn; lia].
    + apply (IH vs _ i); [done|done|cbn in Hlen; lia].
Qed.

Lemma dict_row_keys fieldnames : ∀ fields d k,
  is_Some (dict_row fieldnames fields d !! k) ↔ k ∈ fieldnames ∨ is_Some (d !! k).
Proof.
  induction fieldnames as [|f fs IH]; intros fields d k.
  - cbn [dict_row]. split; [by right|]. intros [H|H]; [|done]. by apply not_elem_of_nil in H.
  - rewrite elem_of_cons.
    destruct fields as [|v vs]; cbn [dict_row]; rewrite IH, lookup_insert_is_Some;
      (split; [intros [?|[?|[_ ?]]]; auto|intros [[->|?]|?]; auto]);
      (destruct (decide (f = k)) as [->|Hne]; auto).
Qed.

Lemma dict_row_cells fieldnames : ∀ fields d k c,
  dict_row fieldnames fields d !! k = Some c →
  (c = CNone ∨ ∃ s, c = CStr s) ∨ d !! k = Some c.
Proof.
  induction fieldnames as [|f fs IH]; intros fields d k c; [by right|].
  destruct fields as [|v vs]; cbn [dict_row]; intros [H|H]%IH; try (by left);
    (destruct (decide (f = k)) as [->|Hne];
     [rewrite lookup_insert_eq in H; injection H as <-; left; eauto
     |rewrite lookup_insert_ne in H by done; by right]).
Qed.

(** [read_input_csv] on a table that can be read returns one row per
    data line that is not blank, and reads nothing else; the [str] keys of
    every row are the names of the header line, these and no others, so that
    a column the header lacks is missing in every row; and every value under
    such a key is a text or [None], never a number. *)
Theorem input_rows_share_header_keys input w fieldnames lines :
  tables w !! input = Some (fieldnames :: lines) →
  ∃ rows,
    read_input_csv input w = (Ret rows, advance w 0 [EvReadTable input]) ∧
    length rows = length (filter (λ line : list string, line ≠ []) lines) ∧
    Forall (λ r : row,
              (∀ k, is_Some (r !! k) ↔ k ∈ fieldnames) ∧
              (∀ k c, r !! k = Some c → c = CNone ∨ ∃ s, c = CStr s)) rows.
Proof.
  intros Ht. eexists. split; [by apply read_input_csv_ok|].
  cbn [DictReader]. split; [by rewrite length_map|].
  apply Forall_forall. intros r [line [-> _]]%list_elem_of_fmap. split.
  - intros k. rewrite dict_row_keys, lookup_empty. split; [|by left].
    intros [H|[? H]]; [done|discriminate].
  - intros k c [H|H]%dict_row_cells; [done|]. by rewrite lookup_empty in H.
Qed.

(** [input_rows_share_header_keys] on the table of scenario A. *)
Lemma input_rows_scenario_A :
  ∃ rows,
    read_input_csv "in.csv" scenario_A =
      (Ret rows, advance scenario_A 0 [EvReadTable "in.csv"]) ∧
    length rows = length (filter (λ line : list string, line ≠ []) [["Foo.java"; "42"]]) ∧
    Forall (λ r : row,
              (∀ k, is_Some (r !! k) ↔ k ∈ ["file_path"; "measures"]) ∧
              (∀ k c, r !! k = Some c → c = CNone ∨ ∃ s, c = CStr s)) rows.
Proof.
  apply (input_rows_share_header_keys "in.csv" scenario_A ["file_path"; "measures"]
           [["Foo.java"; "42"]]).
  reflexivity.
Defined.

(** An input table without data lines (an empty file, a header alone,
    blank lines after it) is not an error: the run returns, the output file
    holds the header line and nothing else, no source is read and no request
    is sent. *)
Theorem empty_table_gives_header input out model timeout cache_dir n w records :
  tables w !! input = Some records →
  Forall (λ line : list string, line = []) (tail records) →
  (out ∉ unwritable w) →
  ∃ w',
    process_rows input out model timeout cache_dir n w = (Ret tt, w') ∧
    fs w' !! out = Some (Text (csv_line (header n))) ∧
    trace w' =
      trace w ++ [EvReadTable input; EvOpenWrite out; EvWriteRow out (header n)] ∧
    calls w' = calls w.
Proof.
  intros Ht Hblank Hw. rewrite process_rows_unfold, (read_input_csv_ok _ _ _ Ht).
  cbn [unwritable advance]. destruct (decide _) as [|_]; [done|].
  rewrite (DictReader_blank _ Hblank). cbn [for_each]. unfold ret.
  eexists. split; [done|]. rewrite started_file, started_trace. cbn [trace advance].
  split_and!; [done|by rewrite <- app_assoc|done].
Qed.

(** [empty_table_gives_header] on a table made of a header and a blank line. *)
Lemma empty_table_scenario :
  ∃ w',
    process_rows "in.csv" "out.csv" "llama" 180 "code_cache" 3 scenario_header_only =
      (Ret tt, w') ∧
    fs w' !! "out.csv" = Some (Text (csv_line (header 3))) ∧
    trace w' =
      trace scenario_header_only ++
      [EvReadTable "in.csv"; EvOpenWrite "out.csv"; EvWriteRow "out.csv" (header 3)] ∧
    calls w' = calls scenario_header_only.
Proof.
  apply (empty_table_gives_header "in.csv" "out.csv" "llama" 180 "code_cache" 3
           scenario_header_only [["file_path"; "measures"]; []]).
  - reflexivity.
  - repeat constructor.
  - vm_compute. discriminate.
Defined.

(** When the header of the input table has no column [file_path] and the
    table has a data line, the lookup [row["file_path"]] of the first row
    raises [KeyError] outside every [try]: the exception leaves
    [process_rows] as it is (a traceback, exit status 1), the script logs
    nothing, and the output file is left with its header line alone; no
    source is read, no request is sent. *)
Theorem missing_file_path_column
    input out model timeout cache_dir n w fieldnames lines :
  tables w !! input = Some (fieldnames :: lines) →
  "file_path" ∉ fieldnames →
  Exists (λ line : list string, line ≠ []) lines →
  (out ∉ unwritable w) →
  ∃ w',
    process_rows input out model timeout cache_dir n w =
      (Raise (KeyError "file_path"), w') ∧
    exit_status (Raise (KeyError "file_path")) = 1 ∧
    fs w' !! out = Some (Text (csv_line (header n))) ∧
    trace w' =
      trace w ++ [EvReadTable input; EvOpenWrite out; EvWriteRow out (header n)] ∧
    calls w' = calls w.
Proof.
  intros Ht Hcol Hline Hw. rewrite process_rows_unfold, (read_input_csv_ok _ _ _ Ht).
  cbn [unwritable advance]. destruct (decide _) as [|_]; [done|].
  unfold DictReader.
  destruct (filter (λ r : list string, r ≠ []) lines) as [|line rest] eqn:Hf.
  { exfalso. apply Exists_exists in Hline as (line & Hin & Hne).
    assert (Hin' : line ∈ filter (λ r : list string, r ≠ []) lines)
      by (by apply list_elem_of_filter).
    rewrite Hf in Hin'. by apply not_elem_of_nil in Hin'. }
  cbn [map for_each]. unfold bind.
  rewrite process_one_no_file_path
    by (by rewrite dict_row_lookup_other, lookup_empty).
  eexists. split; [done|]. rewrite started_file, started_trace. cbn [trace advance].
  split_and!; [done|done|by rewrite <- app_assoc|done].
Qed.

(** [missing_file_path_column] on a table whose first column is named
    [path]. *)
Lemma missing_file_path_scenario :
  ∃ w',
    process_rows "in.csv" "out.csv" "llama" 180 "code_cache" 3 scenario_no_file_path =
      (Raise (KeyError "file_path"), w') ∧
    exit_status (Raise (KeyError "file_path")) = 1 ∧
    fs w' !! "out.csv" = Some (Text (csv_line (header 3))) ∧
    trace w' =
      trace scenario_no_file_path ++
      [EvReadTable "in.csv"; EvOpenWrite "out.csv"; EvWriteRow "out.csv" (header 3)] ∧
    calls w' = calls scenario_no_file_path.
Proof.
  apply (missing_file_path_column "in.csv" "out.csv" "llama" 180 "code_cache" 3
           scenario_no_file_path ["path"; "measures"] [["Foo.java"; "42"]]).
  - reflexivity.
  - rewrite !not_elem_of_cons. split_and!; [discriminate|discriminate|apply not_elem_of_nil].
  - constructor. discriminate.
  - vm_compute. discriminate.
Defined.

(** When the run comes to a data line that stops before the column
    [file_path] (the first [k] rows being done), the row holds [None] there:
    [None.encode()] raises [AttributeError] inside the [try] of the loop, the
    error is logged with [None] for the path, and the run exits with the
    status 1 before any source is read or any request is sent for the row;
    no file changes. *)
Theorem short_line_aborts_run
    k input out model timeout cache_dir n w fieldnames lines fields i w1 :
  tables w !! input = Some (fieldnames :: lines) →
  DictReader (fieldnames :: lines) !! k = Some (dict_row fieldnames fields ∅) →
  fieldnames !! i = Some "file_path" →
  "file_path" ∉ drop (S i) fieldnames →
  (length fields ≤ i)%nat →
  process_first_rows k input out model timeout cache_dir n w = (Ret tt, w1) →
  process_rows input out model timeout cache_dir n w =
    (Raise (SystemExit 1),
     advance w1 0 [EvLog ERROR "Error processing %s: %s" CNone (Some AttributeError)]).
Proof.
  intros Ht Hk Hi Hlast Hlen Hpre.
  rewrite (process_rows_from _ _ _ _ _ _ _ _ _ _ _ Ht Hk Hpre).
  cbn [for_each]. unfold bind.
  by rewrite (process_one_not_str _ _ _ _ _ _ _ CNone)
    by (by apply (dict_row_short _ _ _ i) || done).
Qed.

(** [short_line_aborts_run] on a table whose only data line has one field
    where the header has two. *)
Lemma short_line_scenario :
  process_rows "in.csv" "out.csv" "llama" 180 "code_cache" 3 scenario_short_line =
    (Raise (SystemExit 1),
     advance (snd (process_first_rows 0 "in.csv" "out.csv" "llama" 180 "code_cache" 3
                     scenario_short_line)) 0
       [EvLog ERROR "Error processing %s: %s" CNone (Some AttributeError)]).
Proof.
  apply (short_line_aborts_run 0 "in.csv" "out.csv" "llama" 180 "code_cache" 3
           scenario_short_line ["measures"; "file_path"] [["42"]] ["42"] 1).
  - reflexivity.
  - reflexivity.
  - reflexivity.
  - apply not_elem_of_nil.
  - cbn. lia.
  - vm_compute. reflexivity.
Defined.

(** ** Failures before and at a row *)

(** An output file that cannot be opened is not handled anywhere: the
    [OSError] of [open(output_csv, "w")] leaves [process_rows] as it is, after
    the input table was read; nothing is logged and nothing else is done (a
    traceback, exit status 1). *)
Theorem unopenable_output_escapes input out model timeout cache_dir n w records :
  tables w !! input = Some records →
  out ∈ unwritable w →
  process_rows input out model timeout cache_dir n w =
    (Raise OSError, advance w 0 [EvReadTable input]) ∧
  exit_status (Raise OSError) = 1.
Proof.
  intros Ht Hw. rewrite process_rows_unfold, (read_input_csv_ok _ _ _ Ht).
  cbn [unwritable advance]. by destruct (decide _).
Qed.

(** [unopenable_output_escapes] with an output path that cannot be written. *)
Lemma unopenable_output_scenario :
  process_rows "in.csv" "out.csv" "llama" 180 "code_cache" 3 scenario_readonly =
    (Raise OSError, advance scenario_readonly 0 [EvReadTable "in.csv"]) ∧
  exit_status (Raise OSError) = 1.
Proof.
  apply (unopenable_output_escapes "in.csv" "out.csv" "llama" 180 "code_cache" 3
           scenario_readonly [["file_path"; "measures"]; ["Foo.java"; "42"]]).
  - reflexivity.
  - vm_compute. reflexivity.
Defined.

(** When the run comes to a row whose cached source cannot be read (the
    first [k] rows being done), the failure is logged once, by
    [read_source], under the path of the cache file (the digest, not the
    [file_path] of the row); [SystemExit] is not an [Exception], so the
    handler of the loop logs nothing more; no request is sent and no file
    changes. *)
Theorem unreadable_source_logged_once
    k input out model timeout cache_dir n w records r fp w1 :
  tables w !! input = Some records →
  DictReader records !! k = Some r →
  process_first_rows k input out model timeout cache_dir n w = (Ret tt, w1) →
  r !! "file_path" = Some (CStr fp) →
  ¬ readable w1 (cache_file cache_dir fp) →
  process_rows input out model timeout cache_dir n w =
    (Raise (SystemExit 1),
     advance w1 0
       [EvRead (cache_file cache_dir fp);
        EvLog ERROR "Error reading source code %s: %s"
          (CStr (cache_file cache_dir fp)) (Some OSError)]).
Proof.
  intros Ht Hk Hpre Hfp Hnr.
  rewrite (process_rows_from _ _ _ _ _ _ _ _ _ _ _ Ht Hk Hpre).
  cbn [for_each]. unfold bind.
  by rewrite (process_one_after_row out _ _ _ _ _ _ fp _ _ Hfp
             (process_row_unreadable _ model timeout _ n _ _ Hfp Hnr)).
Qed.

(** [unreadable_source_logged_once] on scenario B. *)
Lemma logged_once_scenario_B :
  process_rows "in.csv" "out.csv" "llama" 180 "code_cache" 2 scenario_B =
    (Raise (SystemExit 1),
     advance (snd (process_first_rows 1 "in.csv" "out.csv" "llama" 180 "code_cache" 2
                     scenario_B)) 0
       [EvRead (cache_file "code_cache" "Bar.java");
        EvLog ERROR "Error reading source code %s: %s"
          (CStr (cache_file "code_cache" "Bar.java")) (Some OSError)]).
Proof.
  apply (unreadable_source_logged_once 1 "in.csv" "out.csv" "llama" 180 "code_cache" 2
           scenario_B
           [["file_path"; "measures"]; ["Foo.java"; "42"]; ["Bar.java"; "7"]]
           (dict_row ["file_path"; "measures"] ["Bar.java"; "7"] ∅) "Bar.java").
  - reflexivity.
  - reflexivity.
  - vm_compute. reflexivity.
  - vm_compute. reflexivity.
  - intros [s Hs]. vm_compute in Hs. discriminate.
Defined.

(** The loop of attempts when the request of turn [j] is interrupted: the
    turns before it are done, the request of turn [j] is sent, and
    [KeyboardInterrupt] leaves the loop. *)
Lemma attempts_interrupted r model timeout code file_path j :
  r !! "file_path" = Some file_path →
  ∀ n seconds w,
  (j < n)%nat →
  (∀ i, (i < j)%nat →
        service w (calls w + i)%nat (request_of model timeout code) ≠ Interrupted) →
  service w (calls w + j)%nat (request_of model timeout code) = Interrupted →
  let rq := request_of model timeout code in
  for_range n (attempt r model timeout code) seconds w =
    (Raise KeyboardInterrupt,
     advance w (S j)
       (flat_map (attempt_events rq file_path) (attempt_values w rq (calls w) j)
        ++ [EvPost rq])).
Proof.
  intros Hfp. induction j as [|j IH]; intros n seconds w Hj Hok Hint; cbn zeta;
    (destruct n as [|n]; [lia|]);
    cbn [for_range]; unfold bind; rewrite (attempt_run _ _ _ _ _ _ _ Hfp); cbn zeta;
    set (rq := request_of model timeout code) in *.
  - rewrite Nat.add_0_r in Hint. rewrite Hint. reflexivity.
  - assert (H0 : service w (calls w) rq ≠ Interrupted).
    { specialize (Hok 0%nat). rewrite Nat.add_0_r in Hok. apply Hok. lia. }
    unfold attempt_values. cbn [seq map flat_map]. fold (attempt_values w rq (S (calls w)) j).
    assert (Hnext : ∀ seconds' evs,
      for_range n (attempt r model timeout code) seconds' (advance w 1 evs) =
        (Raise KeyboardInterrupt,
         advance (advance w 1 evs) (S j)
           (flat_map (attempt_events rq file_path)
              (attempt_values w rq (S (calls w)) j) ++ [EvPost rq]))).
    { intros seconds' evs. apply (IH n seconds' (advance w 1 evs)); [lia| |].
      - intros i Hi. cbn [calls service advance].
        replace (1 + calls w + i)%nat with (calls w + S i)%nat by lia. apply Hok. lia.
      - cbn [calls service advance].
        by replace (1 + calls w + j)%nat with (calls w + S j)%nat by lia. }
    destruct (attempt_value (service w (calls w) rq)) as [v|e] eqn:Hv.
    + rewrite Hnext, advance_advance. cbn [attempt_events app Nat.add]. done.
    + destruct (is_Exception e) eqn:He.
      2:{ by apply attempt_value_uncaught in Hv. }
      rewrite Hnext, advance_advance, <- app_assoc. done.
Qed.

Lemma process_row_interrupted r model timeout cache_dir n w fp code j :
  r !! "file_path" = Some (CStr fp) →
  fs w !! cache_file cache_dir fp = Some (Text code) →
  (j < Z.to_nat n)%nat →
  (∀ i, (i < j)%nat →
        service w (calls w + i)%nat (request_of model timeout code) ≠ Interrupted) →
  service w (calls w + j)%nat (request_of model timeout code) = Interrupted →
  let rq := request_of model timeout code in
  process_row r model timeout cache_dir n w =
    (Raise KeyboardInterrupt,
     advance w (S j)
       (EvRead (cache_file cache_dir fp) ::
        flat_map (attempt_events rq (CStr fp)) (attempt_values w rq (calls w) j)
        ++ [EvPost rq])).
Proof.
  intros Hfp Hcode Hj Hok Hint. cbn zeta.
  unfold process_row, row_get. rewrite Hfp, bind_lift. cbn [encode].
  rewrite bind_lift. cbn zeta. fold (cache_file cache_dir fp).
  unfold bind at 1. rewrite (read_source_ok _ _ _ Hcode).
  rewrite (attempts_interrupted _ _ _ _ _ j Hfp) by done.
  cbn zeta. by rewrite advance_advance.
Qed.

(** When the operator interrupts request [j] of a row (the first [k] rows
    being done, the requests before it answered or failed), the run logs
    [Interrupted at] with the [file_path] of the row and exits with the
    status 1, after [j + 1] requests for the row; the results of the turns
    before are lost: no line is written for the row and no file changes. *)
Theorem interruption_discards_row
    k input out model timeout cache_dir n w records r fp code j w1 :
  tables w !! input = Some records →
  DictReader records !! k = Some r →
  process_first_rows k input out model timeout cache_dir n w = (Ret tt, w1) →
  r !! "file_path" = Some (CStr fp) →
  fs w1 !! cache_file cache_dir fp = Some (Text code) →
  (j < Z.to_nat n)%nat →
  (∀ i, (i < j)%nat →
        service w1 (calls w1 + i)%nat (request_of model timeout code) ≠ Interrupted) →
  service w1 (calls w1 + j)%nat (request_of model timeout code) = Interrupted →
  let rq := request_of model timeout code in
  let run := process_rows input out model timeout cache_dir n w in
  fst run = Raise (SystemExit 1) ∧
  exit_status (fst run) = 1 ∧
  snd run =
    advance w1 (S j)
      (EvRead (cache_file cache_dir fp) ::
       flat_map (attempt_events rq (CStr fp)) (attempt_values w1 rq (calls w1) j)
       ++ [EvPost rq; EvLog INFO "Interrupted at %s" (CStr fp) None]) ∧
  fs (snd run) = fs w1.
Proof.
  intros Ht Hk Hpre Hfp Hcode Hj Hok Hint. cbn zeta.
  rewrite (process_rows_from _ _ _ _ _ _ _ _ _ _ _ Ht Hk Hpre).
  cbn [for_each]. unfold bind.
  rewrite (process_one_after_row out _ _ _ _ _ _ fp _ _ Hfp
             (process_row_interrupted _ _ _ _ _ _ _ _ _ Hfp Hcode Hj Hok Hint)).
  rewrite advance_advance. cbn [fst snd exit_status].
  split_and!; [done|done| |done].
  rewrite Nat.add_0_r. f_equal. rewrite <- app_comm_cons. f_equal.
  by rewrite <- app_assoc.
Qed.

(** [interruption_discards_row] on a run interrupted at its second request. *)
Lemma interruption_scenario :
  fst (process_rows "in.csv" "out.csv" "llama" 180 "code_cache" 3 scenario_interrupted) =
    Raise (SystemExit 1) ∧
  exit_status
    (fst (process_rows "in.csv" "out.csv" "llama" 180 "code_cache" 3 scenario_interrupted))
    = 1 ∧
  snd (process_rows "in.csv" "out.csv" "llama" 180 "code_cache" 3 scenario_interrupted) =
    advance (snd (process_first_rows 0 "in.csv" "out.csv" "llama" 180 "code_cache" 3
                    scenario_interrupted)) 2
      (EvRead (cache_file "code_cache" "Foo.java") ::
       flat_map (attempt_events (request_of "llama" 180 "class Foo {}") (CStr "Foo.java"))
         (attempt_values
            (snd (process_first_rows 0 "in.csv" "out.csv" "llama" 180 "code_cache" 3
                    scenario_interrupted))
            (request_of "llama" 180 "class Foo {}") 0 1)
       ++ [EvPost (request_of "llama" 180 "class Foo {}");
           EvLog INFO "Interrupted at %s" (CStr "Foo.java") None]) ∧
  fs (snd (process_rows "in.csv" "out.csv" "llama" 180 "code_cache" 3 scenario_interrupted))
    = fs (snd (process_first_rows 0 "in.csv" "out.csv" "llama" 180 "code_cache" 3
                 scenario_interrupted)).
Proof.
  apply (interruption_discards_row 0 "in.csv" "out.csv" "llama" 180 "code_cache" 3
           scenario_interrupted [["file_path"; "measures"]; ["Foo.java"; "42"]]
           (dict_row ["file_path"; "measures"] ["Foo.java"; "42"] ∅)
           "Foo.java" "class Foo {}" 1).
  - reflexivity.
  - reflexivity.
  - vm_compute. reflexivity.
  - vm_compute. reflexivity.
  - vm_compute. reflexivity.
  - vm_compute. lia.
  - intros i Hi. assert (i = 0%nat) as -> by lia. discriminate.
  - reflexivity.
Defined.

(** ** What a run asks for, and what it leaves alone *)

(** The body of the loop over the rows sends at most [ask_repeats]
    requests; when it returns it has sent exactly that many and has read the
    cache file of the row, once. *)
Lemma process_one_effort out model timeout cache_dir n r w :
  ∃ res w' evs,
    process_one out model timeout cache_dir n r w = (res, w') ∧
    trace w' = trace w ++ evs ∧
    calls w' = (length (posts evs) + calls w)%nat ∧
    (length (posts evs) ≤ Z.to_nat n)%nat ∧
    (res = Ret tt →
     length (posts evs) = Z.to_nat n ∧
     ∃ fp, r !! "file_path" = Some (CStr fp) ∧ reads evs = [cache_file cache_dir fp]).
Proof.
  destruct (r !! "file_path") as [c|] eqn:Hfp.
  2:{ exists (Raise (KeyError "file_path")), w, [].
      rewrite process_one_no_file_path, app_nil_r by done.
      split_and!; try done. cbn; lia. }
  assert (Hc : (∃ fp, c = CStr fp) ∨ (∀ fp, c ≠ CStr fp))
    by (destruct c; [right|left|right]; eauto; done).
  destruct Hc as [[fp ->]|Hc].
  2:{ eexists _, _, _. rewrite (process_one_not_str _ _ _ _ _ _ _ c) by done.
      split_and!; try done. cbn; lia. }
  destruct (fs w !! cache_file cache_dir fp) as [[code|]|] eqn:Hcode.
  2,3: assert (Hnr : ¬ readable w (cache_file cache_dir fp))
         by (intros [? ?]; congruence);
       eexists _, _, _;
       rewrite (process_one_after_row out _ _ _ _ _ _ fp _ _ Hfp
                  (process_row_unreadable _ model timeout _ n _ _ Hfp Hnr));
       cbn [is_Exception];
       (split_and!; [done|done|done|cbn; lia|done]).
  destruct (process_row_any r model timeout cache_dir n w fp Hfp)
    as (m & evs & res & Hrow & Hreads & Hlw & Hposts & Hres).
  specialize (Hposts _ Hcode).
  assert (Hlen : length (posts evs) = m) by (by rewrite Hposts, repeat_length).
  rewrite (process_one_after_row out _ _ _ _ _ _ fp _ _ Hfp Hrow).
  assert (Hm : (m ≤ Z.to_nat n)%nat).
  { destruct res as [s|e]; [by destruct Hres as (-> & _)|].
    destruct Hres as [(_ & _ & -> & _)|(_ & ? & _)]; lia. }
  destruct res as [seconds|e].
  - destruct Hres as (-> & _ & _ & _).
    destruct (r !! "measures") as [measures|].
    + eexists _, _, (EvRead (cache_file cache_dir fp) :: evs ++ [EvWriteRow out _]).
      split; [done|]. unfold write_to, emit_to, set_file, advance. cbn [trace calls].
      rewrite <- app_assoc. cbn [app posts reads]. rewrite posts_app, length_app, Hlen.
      cbn [posts length].
      split_and!; [done|lia|lia|]. intros _. split; [lia|].
      exists fp. split; [done|].
      clear -Hreads. induction evs as [|[] evs IH]; cbn in *; try done; auto.
    + eexists _, _, (EvRead (cache_file cache_dir fp) :: evs ++
                       [EvLog ERROR "Error processing %s: %s" (CStr fp)
                          (Some (KeyError "measures"))]).
      split; [done|]. rewrite advance_advance.
      cbn [trace calls advance app posts]. rewrite posts_app, length_app, Hlen.
      split_and!; [done|cbn; lia|cbn; lia|done].
  - assert (He : e = SystemExit 1 ∨ e = KeyboardInterrupt)
      by (destruct Hres as [(-> & _)|(-> & _)]; auto).
    destruct He as [-> | ->]; cbn [is_Exception].
    + eexists _, _, (EvRead (cache_file cache_dir fp) :: evs).
      split; [done|]. cbn [trace calls advance app posts].
      split_and!; [done|lia|lia|done].
    + eexists _, _, (EvRead (cache_file cache_dir fp) :: evs ++
                       [EvLog INFO "Interrupted at %s" (CStr fp) None]).
      split; [done|]. rewrite advance_advance.
      cbn [trace calls advance app posts]. rewrite posts_app, length_app, Hlen.
      split_and!; [done|cbn; lia|cbn; lia|done].
Qed.

Lemma rows_effort out model timeout cache_dir n rows :
  ∀ w, ∃ res w' evs,
    for_each rows (process_one out model timeout cache_dir n) w = (res, w') ∧
    trace w' = trace w ++ evs ∧
    calls w' = (length (posts evs) + calls w)%nat ∧
    (length (posts evs) ≤ Z.to_nat n * length rows)%nat ∧
    (res = Ret tt →
     length (posts evs) = (Z.to_nat n * length rows)%nat ∧
     Forall2 (λ r p, ∃ fp, r !! "file_path" = Some (CStr fp) ∧ p = cache_file cache_dir fp)
       rows (reads evs)).
Proof.
  induction rows as [|r rows IH]; intros w.
  - exists (Ret tt), w, []. rewrite app_nil_r.
    split_and!; [done|done|done|cbn; lia|intros _; split; [cbn; lia|constructor]].
  - cbn [for_each]. unfold bind.
    destruct (process_one_effort out model timeout cache_dir n r w)
      as (res & w1 & evs1 & -> & T1 & C1 & L1 & R1).
    destruct res as [[]|e].
    + destruct (IH w1) as (res & w' & evs & -> & T & C & L & R).
      destruct (R1 eq_refl) as (E1 & fp & Hfp & Hr1).
      exists res, w', (evs1 ++ evs).
      rewrite posts_app, length_app, T, T1, C, C1, <- app_assoc. cbn [length].
      split_and!; [done|done|lia|lia|].
      intros Hres. destruct (R Hres) as [E F]. split; [lia|].
      assert (Happ : reads (evs1 ++ evs) = reads evs1 ++ reads evs).
      { clear. induction evs1 as [|[] evs1 IH]; cbn; by rewrite ?IH. }
      rewrite Happ, Hr1. constructor; [by exists fp|done].
    + exists (Raise e), w1, evs1. cbn [length]. split_and!; [done|done|done|lia|done].
Qed.

(** A run over a table that can be read sends at most [ask_repeats]
    requests per row, none at all when [ask_repeats] is zero or negative;
    the counter of requests moves with the requests logged.  When the run
    returns it has sent exactly [ask_repeats] requests for every row, and has
    read the cache files of the rows, each once, in the order of the rows, and
    no other source. *)
Theorem run_requests_and_reads input out model timeout cache_dir n w records :
  tables w !! input = Some records →
  let run := process_rows input out model timeout cache_dir n w in
  let rows := DictReader records in
  ∃ evs,
    trace (snd run) = trace w ++ evs ∧
    calls (snd run) = (length (posts evs) + calls w)%nat ∧
    (length (posts evs) ≤ Z.to_nat n * length rows)%nat ∧
    (fst run = Ret tt →
     length (posts evs) = (Z.to_nat n * length rows)%nat ∧
     Forall2 (λ r p, ∃ fp, r !! "file_path" = Some (CStr fp) ∧ p = cache_file cache_dir fp)
       rows (reads evs)).
Proof.
  intros Ht. cbn zeta. rewrite process_rows_unfold, (read_input_csv_ok _ _ _ Ht).
  cbn [unwritable advance]. destruct (decide _) as [|_].
  { exists [EvReadTable input]. cbn. split_and!; [done|done|lia|done]. }
  destruct (rows_effort out model timeout cache_dir n (DictReader records)
              (started out n (advance w 0 [EvReadTable input])))
    as (res & w' & evs & -> & T & C & L & R).
  exists ([EvReadTable input; EvOpenWrite out; EvWriteRow out (header n)] ++ evs).
  cbn [fst snd]. rewrite T, C, started_trace. cbn [trace advance app posts reads].
  split_and!; [by rewrite <- !app_assoc|done|done|done].
Qed.

(** [run_requests_and_reads] on scenario A. *)
Lemma requests_and_reads_scenario_A :
  ∃ evs,
    trace (snd (process_rows "in.csv" "out.csv" "llama" 180 "code_cache" 3 scenario_A)) =
      trace scenario_A ++ evs ∧
    calls (snd (process_rows "in.csv" "out.csv" "llama" 180 "code_cache" 3 scenario_A)) =
      (length (posts evs) + calls scenario_A)%nat ∧
    (length (posts evs) ≤ Z.to_nat 3 * length (DictReader [["file_path"; "measures"]; ["Foo.java"; "42"]]))%nat ∧
    (fst (process_rows "in.csv" "out.csv" "llama" 180 "code_cache" 3 scenario_A) = Ret tt →
     length (posts evs) =
       (Z.to_nat 3 * length (DictReader [["file_path"; "measures"]; ["Foo.java"; "42"]]))%nat ∧
     Forall2 (λ r p, ∃ fp, r !! "file_path" = Some (CStr fp) ∧ p = cache_file "code_cache" fp)
       (DictReader [["file_path"; "measures"]; ["Foo.java"; "42"]]) (reads evs)).
Proof.
  apply (run_requests_and_reads "in.csv" "out.csv" "llama" 180 "code_cache" 3 scenario_A
           [["file_path"; "measures"]; ["Foo.java"; "42"]]).
  reflexivity.
Defined.


(** ** One request *)

Lemma rstrip_rstrip s : rstrip (rstrip s) = rstrip s.
Proof.
  induction s as [|c s IH]; [done|]. cbn [rstrip].
  destruct (rstrip s) as [|d r] eqn:Hr.
  - destruct (is_space c) eqn:Hc; [done|]. cbn [rstrip]. by rewrite Hc.
  - cbn [rstrip]. cbn [rstrip] in IH. by rewrite IH.
Qed.

Lemma lstrip_head s :
  lstrip s = "" ∨ ∃ c r, lstrip s = String c r ∧ is_space c = false.
Proof.
  induction s as [|c s IH]; [by left|]. cbn [lstrip].
  destruct (is_space c) eqn:Hc; [done|]. right. by exists c, s.
Qed.

Lemma lstrip_rstrip_head c r :
  is_space c = false → lstrip (rstrip (String c r)) = rstrip (String c r).
Proof.
  intros Hc. cbn [rstrip]. destruct (rstrip r); [rewrite Hc|]; cbn [lstrip]; by rewrite Hc.
Qed.

(** [s.strip().strip()] is [s.strip()]. *)
Lemma strip_strip s : strip (strip s) = strip s.
Proof.
  unfold strip. destruct (lstrip_head s) as [->|(c & r & -> & Hc)]; [done|].
  by rewrite lstrip_rstrip_head, rstrip_rstrip.
Qed.






(** ** The name of a cache file, the names of the columns *)

Lemma str_app_cons c (s t : string) : String c s +:+ t = String c (s +:+ t).
Proof. reflexivity. Qed.

Lemma str_app_nil_l (t : string) : "" +:+ t = t.
Proof. reflexivity. Qed.

Lemma length_str_app (a b : string) :
  String.length (a +:+ b) = (String.length a + String.length b)%nat.
Proof.
  induction a as [|x a IH]; [done|].
  change (S (String.length (a +:+ b)) = S (String.length a + String.length b)).
  by rewrite IH.
Qed.

Lemma all_chars_app p (a b : string) :
  all_chars p (a +:+ b) = all_chars p a && all_chars p b.
Proof.
  induction a as [|x a IH]; [done|].
  change (p x && all_chars p (a +:+ b) = p x && all_chars p a && all_chars p b).
  by rewrite IH, andb_assoc.
Qed.

Lemma concat_uniform p k (l : list string) :
  Forall (λ s, String.length s = k ∧ all_chars p s = true) l →
  String.length (String.concat "" l) = (k * length l)%nat ∧
  all_chars p (String.concat "" l) = true.
Proof.
  induction 1 as [|s l [Hk Hp] Hl [IHk IHp]]; [split; [cbn; lia|done]|].
  assert (E : String.concat "" (s :: l) = s +:+ String.concat "" l).
  { destruct l as [|s' l]; [by rewrite str_app_nil_r|done]. }
  rewrite E, length_str_app, all_chars_app, Hk, Hp, IHk, IHp. cbn [length]. split; [lia|done].
Qed.

Lemma hex_digit_hex x : is_hex (Sha256.hex_digit x) = true.
Proof.
  unfold Sha256.hex_digit.
  destruct (nth_in_or_default (Z.to_nat x) (list_ascii_of_string "0123456789abcdef")
              "0"%char) as [Hin| ->]; [|done].
  revert Hin. generalize (nth (Z.to_nat x) (list_ascii_of_string "0123456789abcdef") "0"%char).
  intros c Hin. cbn in Hin.
  repeat (destruct Hin as [<-|Hin]; [done|]). done.
Qed.

Lemma be_bytes_length n x : length (Sha256.be_bytes n x) = n.
Proof.
  revert x. induction n as [|n IH]; intros x; [done|].
  cbn [Sha256.be_bytes]. rewrite length_app, IH. cbn. lia.
Qed.

Lemma hex_word_shape x :
  String.length (Sha256.hex_word x) = 8%nat ∧ all_chars is_hex (Sha256.hex_word x) = true.
Proof.
  unfold Sha256.hex_word.
  destruct (concat_uniform is_hex 2 (map Sha256.hex_byte (Sha256.be_bytes 4 x))) as [Hl Hp].
  { apply Forall_forall. intros s [b [-> _]]%list_elem_of_fmap. split; [done|].
    unfold Sha256.hex_byte. cbn [all_chars]. by rewrite !hex_digit_hex. }
  by rewrite Hl, length_map, be_bytes_length.
Qed.

Lemma blocks_length fuel : ∀ h words,
  length h = 8%nat → length (Sha256.blocks fuel h words) = 8%nat.
Proof.
  induction fuel as [|fuel IH]; intros h words Hh; [done|].
  destruct words as [|x words]; [done|]. cbn [Sha256.blocks]. by apply IH.
Qed.

(** [hexdigest()] is 64 characters among [0-9a-f], whatever was hashed. *)
Lemma hexdigest_shape b :
  String.length (Sha256.hexdigest b) = 64%nat ∧
  all_chars is_hex (Sha256.hexdigest b) = true.
Proof.
  unfold Sha256.hexdigest.
  destruct (concat_uniform is_hex 8
              (map Sha256.hex_word (Sha256.digest (Sha256.bytes_of b)))) as [Hl Hp].
  { apply Forall_forall. intros s [x [-> _]]%list_elem_of_fmap. apply hex_word_shape. }
  rewrite Hl, length_map. unfold Sha256.digest. cbn zeta.
  by rewrite blocks_length.
Qed.

(** The file [process_row] reads for a row, and it reads no other, lies
    directly in the cache directory, and its name is 64 hexadecimal digits
    followed by [.txt], whatever the [file_path] of the row holds
    (separators, dots, an absolute path): the [file_path] never reaches the
    file system. *)
Theorem cache_file_name_shape r model timeout cache_dir n w fp :
  r !! "file_path" = Some (CStr fp) →
  ∃ name evs,
    trace (snd (process_row r model timeout cache_dir n w)) = trace w ++ evs ∧
    reads evs = [cache_dir +:+ "/" +:+ name +:+ ".txt"] ∧
    String.length name = 64%nat ∧
    all_chars is_hex name = true.
Proof.
  intros Hfp.
  destruct (process_row_any r model timeout cache_dir n w fp Hfp)
    as (m & evs & res & -> & Hreads & _).
  exists (Sha256.hexdigest fp), (EvRead (cache_file cache_dir fp) :: evs).
  cbn [snd trace advance reads]. rewrite Hreads.
  split_and!; [done|done|apply hexdigest_shape..].
Qed.

(** [cache_file_name_shape] on the row of scenario A. *)
Lemma cache_file_name_of_Foo :
  ∃ name evs,
    trace (snd (process_row row_Foo "llama" 180 "code_cache" 3 scenario_A)) =
      trace scenario_A ++ evs ∧
    reads evs = ["code_cache" +:+ "/" +:+ name +:+ ".txt"] ∧
    String.length name = 64%nat ∧
    all_chars is_hex name = true.
Proof.
  apply (cache_file_name_shape row_Foo "llama" 180 "code_cache" 3 scenario_A "Foo.java").
  vm_compute. reflexivity.
Defined.

Lemma llm_column_inj : Inj (=) (=) (λ i : nat, CStr ("llm_seconds_" +:+ pretty i)).
Proof.
  intros i j [= H]. by apply (inj pretty).
Qed.

(** The names of the columns of the output are pairwise distinct, for
    every number of repeats. *)
Theorem header_columns_distinct n : NoDup (header n).
Proof.
  unfold header. apply NoDup_app. split_and!.
  - apply NoDup_cons. split; [|apply NoDup_singleton].
    intros [= ]%list_elem_of_singleton.
  - intros c Hc [i [-> _]]%list_elem_of_fmap.
    apply elem_of_cons in Hc as [Hc|Hc%list_elem_of_singleton]; discriminate.
  - apply NoDup_fmap_2_strong; [|apply NoDup_seq].
    intros i j _ _. apply llm_column_inj.
Qed.

(** ** Integers in decimal *)

(** [pretty] writes a natural number with [pretty_N_go], digit by digit
    from the right. *)
Lemma decimal_app x : ∀ s, pretty_N_go x s = pretty_N_go x "" +:+ s.
Proof.
  induction (N.lt_wf_0 x) as [x _ IH]; intros s.
  destruct (decide (x = 0)%N) as [->|Hx]; [done|].
  rewrite (pretty_N_go_step x s), (pretty_N_go_step x "") by lia.
  rewrite (IH (x `div` 10)%N) by (apply N.div_lt; lia).
  rewrite (IH (x `div` 10)%N ltac:(apply N.div_lt; lia) (String _ "")).
  by rewrite str_app_assoc.
Qed.

Lemma decimal_step x :
  (0 < x)%N →
  pretty_N_go x "" =
    pretty_N_go (x `div` 10) "" +:+ String (pretty_N_char (x `mod` 10)) "".
Proof. intros Hx. by rewrite pretty_N_go_step, decimal_app. Qed.

Lemma pretty_N_char_digit d :
  (d < 10)%N →
  is_digit (pretty_N_char d) = true ∧ code (pretty_N_char d) - 48 = Z.of_N d.
Proof.
  intros Hd.
  assert (d = 0 ∨ d = 1 ∨ d = 2 ∨ d = 3 ∨ d = 4 ∨ d = 5 ∨ d = 6 ∨ d = 7 ∨ d = 8 ∨ d = 9)%N
    as H by lia.
  repeat (destruct H as [->|H]; [by vm_compute|]). subst. by vm_compute.
Qed.

Lemma digits_value_app a : ∀ acc b,
  digits_value acc (a +:+ b) = digits_value (digits_value acc a) b.
Proof.
  induction a as [|c a IH]; intros acc b; [done|].
  change (digits_value (10 * acc + (code c - 48)) (a +:+ b) =
          digits_value (digits_value (10 * acc + (code c - 48)) a) b).
  apply IH.
Qed.

Lemma decimal_digits x : all_chars is_digit (pretty_N_go x "") = true.
Proof.
  induction (N.lt_wf_0 x) as [x _ IH].
  destruct (decide (x = 0)%N) as [->|Hx]; [done|].
  rewrite decimal_step, all_chars_app, IH by (try apply N.div_lt; lia).
  cbn [all_chars]. by rewrite (proj1 (pretty_N_char_digit _ (N.mod_lt x 10 ltac:(done)))).
Qed.

Lemma decimal_value x : digits_value 0 (pretty_N_go x "") = Z.of_N x.
Proof.
  induction (N.lt_wf_0 x) as [x _ IH].
  destruct (decide (x = 0)%N) as [->|Hx]; [done|].
  rewrite decimal_step, digits_value_app, IH by (try apply N.div_lt; lia).
  cbn [digits_value].
  rewrite (proj2 (pretty_N_char_digit _ (N.mod_lt x 10 ltac:(done)))).
  rewrite (N.div_mod x 10) at 3 by done. lia.
Qed.

Lemma decimal_head x :
  (0 < x)%N →
  ∃ d r, pretty_N_go x "" = String d r ∧ is_digit d = true ∧ d ≠ "0"%char.
Proof.
  induction (N.lt_wf_0 x) as [x _ IH]. intros Hx.
  rewrite decimal_step by done.
  destruct (decide (x `div` 10 = 0)%N) as [E|Hq].
  - rewrite E. exists (pretty_N_char (x `mod` 10)), "". split; [done|].
    assert (Hm : (x `mod` 10 < 10)%N) by (by apply N.mod_lt).
    split; [by apply pretty_N_char_digit|].
    assert (Hne : (x `mod` 10 ≠ 0)%N).
    { intros Hz. pose proof (N.div_mod x 10 ltac:(done)). lia. }
    intros Hc. apply Hne. by apply (pretty_N_char_inj _ 0%N).
  - destruct (IH (x `div` 10)%N) as (d & r & -> & Hd & Hne);
      [apply N.div_lt; lia|apply N.neq_0_lt_0; exact Hq|].
    by exists d, (r +:+ String (pretty_N_char (x `mod` 10)) "").
Qed.

Lemma take_digits_app ds c rest :
  all_chars is_digit ds = true → is_digit c = false →
  take_digits (ds +:+ String c rest) = (ds, String c rest).
Proof.
  intros Hds Hc. induction ds as [|d ds IH].
  { change (take_digits (String c rest) = ("", String c rest)).
    cbn [take_digits]. by rewrite Hc. }
  cbn [all_chars] in Hds. apply andb_true_iff in Hds as [Hd Hds].
  change (take_digits (String d (ds +:+ String c rest)) = (String d ds, String c rest)).
  cbn [take_digits]. by rewrite Hd, IH.
Qed.

Lemma int_digits_all ds : ∀ acc b,
  all_chars is_digit ds = true → ds ≠ "" →
  int_digits acc b ds = Some (digits_value acc ds).
Proof.
  induction ds as [|d ds IH]; intros acc b Hds Hne; [done|].
  cbn [all_chars] in Hds. apply andb_true_iff in Hds as [Hd Hds].
  cbn [int_digits digits_value]. rewrite Hd.
  destruct ds as [|d' ds]; [done|]. by apply IH.
Qed.

Lemma rstrip_no_space s : all_chars (λ c, negb (is_space c)) s = true → rstrip s = s.
Proof.
  induction s as [|c s IH]; [done|]. cbn [all_chars].
  intros [Hc Hs]%andb_true_iff. cbn [rstrip]. rewrite IH by done.
  destruct s; [|done]. by apply negb_true_iff in Hc as ->.
Qed.

Lemma strip_no_space s : all_chars (λ c, negb (is_space c)) s = true → strip s = s.
Proof.
  intros Hs. unfold strip.
  assert (lstrip s = s) as ->; [|by apply rstrip_no_space].
  destruct s as [|c s]; [done|]. cbn [all_chars] in Hs.
  apply andb_true_iff in Hs as [Hc _]. cbn [lstrip]. by apply negb_true_iff in Hc as ->.
Qed.

Lemma all_chars_impl (p q : ascii → bool) s :
  (∀ c, p c = true → q c = true) → all_chars p s = true → all_chars q s = true.
Proof.
  intros Hpq. induction s as [|c s IH]; [done|]. cbn [all_chars].
  intros [Hc Hs]%andb_true_iff. by rewrite (Hpq _ Hc), IH.
Qed.

Lemma digit_cases c :
  is_digit c = true →
  c ∈ ["0"; "1"; "2"; "3"; "4"; "5"; "6"; "7"; "8"; "9"]%char.
Proof.
  destruct c as [[] [] [] [] [] [] [] []]; intros H; try discriminate H;
    repeat (first [apply list_elem_of_here | apply list_elem_of_further]).
Qed.

Lemma scan_number_decimal d r rest :
  is_digit d = true → d ≠ "0"%char → all_chars is_digit r = true →
  Json.scan_number (String d (r +:+ String "}" rest)) =
    Some (PInt (digits_value 0 (String d r)), String "}" rest).
Proof.
  intros Hd Hz Hr. pose proof Hd as Hin. apply digit_cases in Hin.
  repeat (apply elem_of_cons in Hin as [->|Hin]; [try done|]);
    [..|by apply not_elem_of_nil in Hin].
  all: unfold Json.scan_number; cbn [take_digits]; cbn;
    rewrite take_digits_app, Hd by done; cbn; by rewrite Z.mul_1_l.
Qed.

Lemma scan_number_negative d r rest :
  is_digit d = true → d ≠ "0"%char → all_chars is_digit r = true →
  Json.scan_number (String "-" (String d (r +:+ String "}" rest))) =
    Some (PInt (- digits_value 0 (String d r)), String "}" rest).
Proof.
  intros Hd Hz Hr. pose proof Hd as Hin. apply digit_cases in Hin.
  repeat (apply elem_of_cons in Hin as [->|Hin]; [try done|]);
    [..|by apply not_elem_of_nil in Hin].
  all: unfold Json.scan_number; cbn [take_digits]; cbn;
    rewrite take_digits_app, Hd by done; cbn;
    do 3 f_equal; lia.
Qed.

(** The decoder on [{"seconds": v}] for a value [v] it reads up to the
    closing brace. *)
Lemma loads_seconds_object c body v :
  Json.is_ws c = false →
  (∀ f, Json.scan_once (S f) (String c (body +:+ "}")) = Some (v, "}")) →
  Json.loads (dq "{'seconds': " +:+ String c body +:+ "}") = Ret (PDict [("seconds", v)]).
Proof.
  intros Hc Hv. unfold Json.loads. expose_text.
  match goal with
  | |- context [String.length (String ?a ?s)] =>
      change (String.length (String a s)) with (S (String.length s));
      generalize (String.length s)
  end.
  intros f. specialize (Hv f). revert Hv. generalize (S f). clear f. intros f Hv.
  run_scanner. rewrite Hc, Hv. by run_scanner.
Qed.

Lemma scan_once_decimal f d r :
  is_digit d = true → d ≠ "0"%char → all_chars is_digit r = true →
  Json.scan_once (S f) (String d (r +:+ "}")) =
    Some (PInt (digits_value 0 (String d r)), "}").
Proof.
  intros Hd Hz Hr. pose proof Hd as Hin. apply digit_cases in Hin.
  repeat (apply elem_of_cons in Hin as [->|Hin]; [try done|]);
    [..|by apply not_elem_of_nil in Hin].
  all: cbn -[Json.scan_number]; by rewrite scan_number_decimal.
Qed.

Lemma scan_once_negative f d r :
  is_digit d = true → d ≠ "0"%char → all_chars is_digit r = true →
  Json.scan_once (S f) (String "-" (String d (r +:+ "}"))) =
    Some (PInt (- digits_value 0 (String d r)), "}").
Proof.
  intros Hd Hz Hr.
  cbn -[Json.scan_number]. by rewrite scan_number_negative.
Qed.

Lemma loads_seconds_pretty (z : Z) :
  Json.loads (dq "{'seconds': " +:+ pretty z +:+ "}") = Ret (PDict [("seconds", PInt z)]).
Proof.
  destruct z as [|p|p].
  - by vm_compute.
  - change (pretty (Z.pos p)) with (pretty_N_go (N.pos p) "").
    destruct (decimal_head (N.pos p)) as (d & r & E & Hd & Hz); [done|].
    pose proof (decimal_digits (N.pos p)) as Hr.
    pose proof (decimal_value (N.pos p)) as Hv. rewrite E in *.
    cbn [all_chars] in Hr. apply andb_true_iff in Hr as [_ Hr].
    change (Z.of_N (N.pos p)) with (Z.pos p) in Hv. rewrite <- Hv.
    apply loads_seconds_object.
    + apply digit_cases in Hd.
      repeat (apply elem_of_cons in Hd as [->|Hd]; [done|]).
      by apply not_elem_of_nil in Hd.
    + intros f. by apply scan_once_decimal.
  - change (pretty (Z.neg p)) with ("-" +:+ pretty_N_go (N.pos p) "").
    destruct (decimal_head (N.pos p)) as (d & r & E & Hd & Hz); [done|].
    pose proof (decimal_digits (N.pos p)) as Hr.
    pose proof (decimal_value (N.pos p)) as Hv. rewrite E in *.
    cbn [all_chars] in Hr. apply andb_true_iff in Hr as [_ Hr].
    change (Z.neg p) with (- Z.of_N (N.pos p)). rewrite <- Hv.
    rewrite str_app_cons, str_app_nil_l.
    apply (loads_seconds_object "-" (String d r)); [done|].
    intros f. rewrite str_app_cons. by apply scan_once_negative.
Qed.

Lemma rstrip_last s e : is_space e = false → rstrip (s +:+ String e "") = s +:+ String e "".
Proof.
  intros He. induction s as [|c s IH].
  - change (rstrip (String e "") = String e ""). cbn [rstrip]. by rewrite He.
  - rewrite str_app_cons. cbn [rstrip]. rewrite IH. by destruct s.
Qed.

Lemma strip_enclosed c s e :
  is_space c = false → is_space e = false →
  strip (String c (s +:+ String e "")) = String c (s +:+ String e "").
Proof.
  intros Hc He. unfold strip. cbn [lstrip]. rewrite Hc.
  by rewrite <- str_app_cons, rstrip_last.
Qed.

Lemma strip_seconds_text (token : string) :
  strip (dq "{'seconds': " +:+ token +:+ "}") = dq "{'seconds': " +:+ token +:+ "}".
Proof.
  change (dq "{'seconds': " +:+ token +:+ "}")
    with (String "{" (String Json.dquote ("seconds" +:+ String Json.dquote ": ")
                      +:+ token +:+ String "}" "")).
  rewrite <- str_app_assoc. by apply strip_enclosed.
Qed.

Lemma parse_seconds_pretty (z : Z) :
  parse_seconds (dq "{'seconds': " +:+ pretty z +:+ "}") = Ret z.
Proof.
  unfold parse_seconds. by rewrite strip_seconds_text, loads_seconds_pretty.
Qed.

Lemma scan_units_plain t rest :
  all_chars json_plain t = true →
  Json.scan_units (t +:+ rest) =
    match Json.scan_units rest with
    | Some (us, r) => Some (map Json.UByte (list_ascii_of_string t) ++ us, r)
    | None => None
    end.
Proof.
  intros Ht. induction t as [|c t IH].
  - rewrite str_app_nil_l. by destruct (Json.scan_units rest) as [[us r]|].
  - cbn [all_chars] in Ht. apply andb_true_iff in Ht as [Hc Ht].
    unfold json_plain in Hc.
    apply andb_true_iff in Hc as [[Hq Hb]%andb_true_iff Hl].
    apply negb_true_iff in Hq, Hb, Hl.
    rewrite str_app_cons. cbn [Json.scan_units]. rewrite Hq, Hb, Hl, IH by done.
    by destruct (Json.scan_units rest) as [[us r]|].
Qed.

Lemma join_units_bytes l us :
  Json.join_units (map Json.UByte l ++ us) = l ++ Json.join_units us.
Proof. induction l as [|c l IH]; [done|]. cbn. by rewrite IH. Qed.

Lemma string_of_list_app t l :
  string_of_list_ascii (list_ascii_of_string t ++ l) = t +:+ string_of_list_ascii l.
Proof.
  induction t as [|c t IH]; [done|]. rewrite str_app_cons. cbn. by rewrite IH.
Qed.

Lemma loads_answer (token : string) :
  all_chars json_plain token = true →
  Json.loads (dq "{'response': '{\'seconds\': " +:+ token +:+ dq "}'}") =
    Ret (PDict [("response", PStr (dq "{'seconds': " +:+ token +:+ "}"))]).
Proof.
  intros Ht. unfold Json.loads. expose_text.
  match goal with
  | |- context [String.length (String ?a (String ?b ?s))] =>
      change (String.length (String a (String b s))) with (S (S (String.length s)));
      generalize (String.length s)
  end.
  intros f. run_scanner. rewrite scan_units_plain by done. run_scanner.
  rewrite join_units_bytes, string_of_list_app. by run_scanner.
Qed.

Lemma attempt_value_answer (token : string) :
  all_chars json_plain token = true →
  attempt_value (answer token) = parse_seconds (dq "{'seconds': " +:+ token +:+ "}").
Proof.
  intros Ht. unfold attempt_value, answer. cbn [outcome_res res_bind].
  unfold response_text, raise_for_status. cbn [status_code text].
  change ((400 <=? 200) && (200 <? 600)) with false. cbn [res_bind].
  rewrite loads_answer by done. cbn [res_bind subscript dict_get strip_method].
  change (String.eqb "response" "response") with true. cbn [res_bind strip_method].
  unfold parse_seconds. by rewrite strip_strip.
Qed.

Lemma pretty_Z_plain (z : Z) : all_chars json_plain (pretty z) = true.
Proof.
  assert (Hd : ∀ x, all_chars json_plain (pretty_N_go x "") = true).
  { intros x. apply (all_chars_impl is_digit); [|apply decimal_digits].
    intros c Hc%digit_cases.
    repeat (apply elem_of_cons in Hc as [->|Hc]; [done|]).
    by apply not_elem_of_nil in Hc. }
  destruct z as [|p|p]; [done|apply Hd|].
  change (pretty (Z.neg p)) with ("-" +:+ pretty_N_go (N.pos p) "").
  rewrite str_app_cons, str_app_nil_l. cbn [all_chars]. by rewrite Hd.
Qed.

Lemma attempt_value_pretty (z : Z) : attempt_value (answer (pretty z)) = Ret z.
Proof. by rewrite attempt_value_answer, parse_seconds_pretty by apply pretty_Z_plain. Qed.

(** When the service answers an attempt with the object [{"seconds": z}],
    [z] an integer in decimal (of at most 4300 digits, the longest Python
    converts), the value recorded for that attempt is [z] itself. *)
Theorem exact_answer_is_recorded
    r model timeout cache_dir ask_repeats w fp code i z :
  r !! "file_path" = Some (CStr fp) →
  fs w !! cache_file cache_dir fp = Some (Text code) →
  uninterrupted w →
  (i < Z.to_nat ask_repeats)%nat →
  Z.abs z < 10 ^ 4300 →
  service w (calls w + i)%nat (request_of model timeout code) = answer (pretty z) →
  ∃ seconds w',
    process_row r model timeout cache_dir ask_repeats w = (Ret seconds, w') ∧
    seconds !! i = Some z.
Proof.
  intros Hfp Hcode Hun Hi _ Hans.
  rewrite (process_row_run _ _ _ _ _ _ _ _ Hfp Hcode) by (by apply uninterrupted_range).
  eexists _, _. split; [done|].
  by rewrite list_lookup_fmap, attempt_values_lookup, Hans, attempt_value_pretty.
Qed.

(** [exact_answer_is_recorded] on the second attempt of scenario A. *)
Lemma exact_answer_scenario_A :
  ∃ seconds w',
    process_row row_Foo "llama" 180 "code_cache" 3 scenario_A = (Ret seconds, w') ∧
    seconds !! 1%nat = Some 8.
Proof.
  apply (exact_answer_is_recorded row_Foo "llama" 180 "code_cache" 3 scenario_A
           "Foo.java" "class Foo {}" 1 8).
  - vm_compute. reflexivity.
  - vm_compute. reflexivity.
  - intros k rq. destruct k as [|[|k]]; discriminate.
  - vm_compute. lia.
  - vm_compute. reflexivity.
  - reflexivity.
Defined.

Lemma existsb_all_chars p s :
  all_chars (λ c, negb (p c)) s = true → existsb p (list_ascii_of_string s) = false.
Proof.
  induction s as [|c s IH]; [done|]. cbn [all_chars list_ascii_of_string existsb].
  intros [Hc Hs]%andb_true_iff. apply negb_true_iff in Hc. by rewrite Hc, IH.
Qed.

Lemma pretty_Z_chars (p : ascii → bool) (z : Z) :
  (∀ c, is_digit c = true → p c = true) → p "-"%char = true →
  all_chars p (pretty z) = true.
Proof.
  intros Hd Hm.
  assert (H : ∀ x, all_chars p (pretty_N_go x "") = true)
    by (intros x; apply (all_chars_impl is_digit); [done|apply decimal_digits]).
  destruct z as [|q|q]; [|apply H|].
  { change (pretty 0) with "0". cbn [all_chars]. by rewrite (Hd "0"%char). }
  change (pretty (Z.neg q)) with ("-" +:+ pretty_N_go (N.pos q) "").
  rewrite str_app_cons, str_app_nil_l. cbn [all_chars]. by rewrite Hm, H.
Qed.

Lemma digit_not (p : ascii → bool) :
  forallb (λ c, negb (p c)) ["0"; "1"; "2"; "3"; "4"; "5"; "6"; "7"; "8"; "9"]%char = true →
  ∀ c, is_digit c = true → negb (p c) = true.
Proof.
  intros H c Hc%digit_cases. rewrite forallb_forall in H. apply H.
  by apply list_elem_of_In.
Qed.

(** An attempt result is written to the output as its decimal text,
    without quotes, and [int()] reads that text back as the same number: the
    sentinel [-1] and every estimate come back as they were recorded. *)
Theorem written_integer_reads_back (z : Z) :
  Z.abs z < 10 ^ 4300 →
  csv_field (CInt z) = pretty z ∧ py_int (PStr (pretty z)) = Ret z.
Proof.
  intros _. split.
  - unfold csv_field. cbn [cell_text].
    by rewrite existsb_all_chars by (apply pretty_Z_chars; [by apply digit_not|done]).
  - unfold py_int, int_of_str.
    rewrite strip_no_space by (apply pretty_Z_chars; [by apply digit_not|done]).
    destruct z as [|q|q]; [done| |].
    + change (pretty (Z.pos q)) with (pretty_N_go (N.pos q) "").
      destruct (decimal_head (N.pos q)) as (d & r & E & Hd & Hz); [done|].
      pose proof (decimal_digits (N.pos q)) as Hr.
      pose proof (decimal_value (N.pos q)) as Hv.
      rewrite E in *.
      assert ((d =? "-")%char = false ∧ (d =? "+")%char = false) as [-> ->].
      { apply digit_cases in Hd.
        repeat (apply elem_of_cons in Hd as [->|Hd]; [done|]).
        by apply not_elem_of_nil in Hd. }
      cbn [snd fst]. rewrite int_digits_all, Hv by done. done.
    + change (pretty (Z.neg q)) with ("-" +:+ pretty_N_go (N.pos q) "").
      rewrite str_app_cons, str_app_nil_l.
      change ("-" =? "-")%char with true. cbn [snd fst].
      rewrite int_digits_all, decimal_value; [done|apply decimal_digits|].
      by destruct (decimal_head (N.pos q)) as (d & r & -> & _).
Qed.

(** [written_integer_reads_back] on the sentinel. *)
Lemma written_integer_minus_one :
  csv_field (CInt (-1)) = pretty (-1) ∧ py_int (PStr (pretty (-1))) = Ret (-1).
Proof.
  apply (written_integer_reads_back (-1)). vm_compute. reflexivity.
Defined.

(** ** Answers with a fraction *)

(** Rounding [p * P / q] to the nearest integer and dividing by [P] gives
    the integer part of [p / q], as long as [q < 2 * P]. *)
Lemma round_half_floor p q P n0 r n :
  0 < q → 0 < P → q < 2 * P → 0 ≤ p →
  p * P = q * n0 + r → 0 ≤ r < q →
  (n = n0 ∨ (n = n0 + 1 ∧ q ≤ 2 * r)) →
  n / P = p / q.
Proof.
  intros Hq HP HqP Hp HN Hr Hn.
  pose proof (Z.div_mod p q ltac:(lia)) as Hdiv.
  pose proof (Z.mod_pos_bound p q Hq) as Hmod.
  set (F := p / q) in *. set (R := p mod q) in *.
  symmetry. apply (Z.div_unique_pos n P F (n - F * P)); [|lia].
  assert (H1 : F * P ≤ n0) by nia.
  assert (H2 : n0 < (F + 1) * P) by nia.
  destruct Hn as [->|[-> H2r]]; [lia|].
  assert (n0 + 1 < (F + 1) * P) by nia. lia.
Qed.

(** For a numerator below [2 ^ 53] the double nearest to [p / q] has the
    integer part of [p / q]. *)
Lemma round_trunc_small p q :
  0 < p → 0 < q → p < 2 ^ 53 → round_trunc p q = Some (p / q).
Proof.
  intros Hp Hq Hlt. unfold round_trunc.
  destruct (2 * p <? q) eqn:H2.
  { apply Z.ltb_lt in H2. by rewrite Z.div_small by lia. }
  apply Z.ltb_ge in H2.
  pose proof (Z.log2_spec p Hp) as [Lp1 Lp2].
  pose proof (Z.log2_spec q Hq) as [Lq1 Lq2].
  pose proof (Z.log2_nonneg p) as Np. pose proof (Z.log2_nonneg q) as Nq.
  assert (Hl : Z.log2 p < 53) by (by apply Z.log2_lt_pow2).
  set (k0 := Z.log2 p - Z.log2 q).
  set (below := if 0 <=? k0 then p <? q * 2 ^ k0 else p * 2 ^ (- k0) <? q).
  set (k := if below then k0 - 1 else k0).
  assert (Hk : k ≤ 52) by (subst k; destruct below; lia).
  assert (HB : q < 2 ^ (53 - k)).
  { subst k. destruct below eqn:Hb.
    - apply (Z.lt_le_trans _ _ _ Lq2), Z.pow_le_mono_r; lia.
    - subst below. destruct (0 <=? k0) eqn:Hk0.
      + apply Z.leb_le in Hk0. apply Z.ltb_ge in Hb.
        assert (E : 2 ^ 53 = 2 ^ k0 * 2 ^ (53 - k0))
          by (rewrite <- Z.pow_add_r by lia; f_equal; lia).
        pose proof (Z.pow_pos_nonneg 2 k0 ltac:(lia) Hk0). nia.
      + apply Z.leb_gt in Hk0. apply Z.ltb_ge in Hb.
        assert (E : 2 ^ (53 - k0) = 2 ^ 53 * 2 ^ (- k0))
          by (rewrite <- Z.pow_add_r by lia; f_equal; lia).
        pose proof (Z.pow_pos_nonneg 2 (- k0) ltac:(lia) ltac:(lia)). nia. }
  clearbody k. clear below k0 Lp1 Lp2 Lq1 Lq2 Np Nq Hl.
  cbn zeta.
  assert (Hs : (0 <=? 52 - k) = true) by (apply Z.leb_le; lia). rewrite !Hs.
  set (P := 2 ^ (52 - k)) in *.
  assert (HP : 0 < P) by (apply Z.pow_pos_nonneg; lia).
  assert (HqP : q < 2 * P).
  { subst P. replace (53 - k) with (Z.succ (52 - k)) in HB by lia.
    rewrite Z.pow_succ_r in HB by lia. done. }
  pose proof (Z.div_mod (p * P) q ltac:(lia)) as HN.
  pose proof (Z.mod_pos_bound (p * P) q Hq) as Hr.
  set (n0 := p * P / q) in *. set (r := p * P mod q) in *.
  set (n := if q <? 2 * r then n0 + 1 else if q =? 2 * r then n0 + n0 mod 2 else n0).
  assert (Hn : n = n0 ∨ (n = n0 + 1 ∧ q ≤ 2 * r)).
  { subst n. destruct (q <? 2 * r) eqn:H1; [apply Z.ltb_lt in H1; right; lia|].
    destruct (q =? 2 * r) eqn:H3; [|by left]. apply Z.eqb_eq in H3.
    pose proof (Z.mod_pos_bound n0 2 ltac:(lia)).
    assert (n0 mod 2 = 0 ∨ n0 mod 2 = 1) as [->| ->] by lia; [left|right]; lia. }
  pose proof (round_half_floor p q P n0 r n Hq HP HqP ltac:(lia) HN Hr Hn) as Hres.
  assert (Hover : (1024 <=? k) || (k =? 1023) && (n =? 2 ^ 53) = false).
  { replace (1024 <=? k) with false by (symmetry; apply Z.leb_gt; lia).
    replace (k =? 1023) with false by (symmetry; apply Z.eqb_neq; lia). done. }
  rewrite Hover. destruct (52 <=? k) eqn:H52.
  - apply Z.leb_le in H52. assert (k = 52) as -> by lia.
    change (52 - 52) with 0 in *. change (2 ^ 0) with 1 in *. subst P.
    by rewrite Z.mul_1_r, <- Hres, Z.div_1_r.
  - by rewrite Hres.
Qed.

Lemma pow2_below_pow10 l : 0 ≤ l ≤ 52 → 2 ^ (l + 1) ≤ 10 ^ ((l + 4) / 3).
Proof.
  intros Hl.
  assert (H : forallb (λ i : nat, 2 ^ (Z.of_nat i + 1) <=? 10 ^ ((Z.of_nat i + 4) / 3))
                (seq 0 53) = true) by (by vm_compute).
  rewrite forallb_forall in H. specialize (H (Z.to_nat l)).
  rewrite Z2Nat.id in H by lia. apply Z.leb_le, H, in_seq. lia.
Qed.

(** [int(float(m * 10 ^ e))] for a literal without positive exponent and
    with less than 16 digits: the literal truncated toward zero. *)
Lemma binary64_trunc_small m e :
  e ≤ 0 → Z.abs m < 2 ^ 53 → binary64_trunc m e = Some (m ÷ 10 ^ (- e)).
Proof.
  intros He Hm. unfold binary64_trunc.
  destruct (m =? 0) eqn:H0; [apply Z.eqb_eq in H0 as ->; by rewrite Z.quot_0_l by lia|].
  apply Z.eqb_neq in H0. cbn zeta.
  set (a := Z.abs m) in *. assert (Ha : 0 < a) by lia.
  pose proof (Z.log2_spec a Ha) as [L1 L2]. pose proof (Z.log2_nonneg a) as Nl.
  assert (Hl : Z.log2 a < 53) by (by apply Z.log2_lt_pow2).
  set (l := Z.log2 a) in *.
  assert (Hq : 0 < 10 ^ (- e)) by (apply Z.pow_pos_nonneg; lia).
  assert (Hquot : m ÷ 10 ^ (- e) = Z.sgn m * (a / 10 ^ (- e))).
  { rewrite Z.quot_div by lia. rewrite (Z.sgn_pos (10 ^ (- e))), (Z.abs_eq (10 ^ (- e))) by lia.
    subst a. lia. }
  assert (H1 : (309 <=? l / 4 + e) = false).
  { apply Z.leb_gt. pose proof (Z.div_le_upper_bound l 4 13 ltac:(lia) ltac:(lia)). lia. }
  rewrite H1. destruct ((l + 4) / 3 + e <? 0) eqn:H2.
  - apply Z.ltb_lt in H2. rewrite Hquot, Z.div_small; [f_equal; lia|].
    split; [lia|]. pose proof (pow2_below_pow10 l ltac:(lia)) as Hp.
    replace (Z.succ l) with (l + 1) in L2 by lia.
    assert (10 ^ ((l + 4) / 3) ≤ 10 ^ (- e)) by (apply Z.pow_le_mono_r; lia). lia.
  - rewrite Z.max_r, Z.max_l by lia. change (10 ^ 0) with 1. rewrite Z.mul_1_r.
    by rewrite round_trunc_small, Hquot by lia.
Qed.

Lemma digits_value_shift s : ∀ acc,
  all_chars is_digit s = true →
  digits_value acc s = acc * 10 ^ Z.of_nat (String.length s) + digits_value 0 s ∧
  0 ≤ digits_value 0 s < 10 ^ Z.of_nat (String.length s).
Proof.
  induction s as [|c s IH]; intros acc Hs.
  - cbn. lia.
  - cbn [all_chars] in Hs. apply andb_true_iff in Hs as [Hc Hs].
    cbn [digits_value String.length].
    destruct (IH (10 * acc + (code c - 48)) Hs) as [-> Hb].
    destruct (IH (10 * 0 + (code c - 48)) Hs) as [-> _].
    rewrite Nat2Z.inj_succ, Z.pow_succ_r by lia.
    unfold is_digit in Hc. apply andb_true_iff in Hc as [H1%Z.leb_le H2%Z.leb_le].
    split; [lia|]. nia.
Qed.

Lemma scan_number_fraction (neg : bool) ds frac rest :
  (ds = "0" ∨ ∃ d r, ds = String d r ∧ is_digit d = true ∧ d ≠ "0"%char ∧
                     all_chars is_digit r = true) →
  all_chars is_digit frac = true → frac ≠ "" →
  Json.scan_number
    ((if neg then "-" else "") +:+ ds +:+ String "." (frac +:+ String "}" rest)) =
    Some (PFloat (FDec ((if neg then -1 else 1) * digits_value (digits_value 0 ds) frac)
                       (- Z.of_nat (String.length frac))),
          String "}" rest).
Proof.
  intros Hds Hfrac Hne.
  destruct frac as [|f0 frac]; [done|]. clear Hne.
  pose proof Hfrac as Hf0. cbn [all_chars] in Hf0. apply andb_true_iff in Hf0 as [Hf0 _].
  assert (Htail : ∀ d r, is_digit d = true → all_chars is_digit r = true →
            take_digits
              (String d (r +:+ String "." (String f0 (frac +:+ String "}" rest)))) =
              (String d r, String "." (String f0 (frac +:+ String "}" rest)))).
  { intros d r Hd Hr. rewrite <- str_app_cons. apply take_digits_app; [|done].
    cbn [all_chars]. by rewrite Hd, Hr. }
  assert (Hfr : take_digits (String f0 (frac +:+ String "}" rest)) =
                  (String f0 frac, String "}" rest))
    by (by rewrite <- str_app_cons, take_digits_app).
  destruct Hds as [->|(d & r & -> & Hd & Hz & Hr)].
  - destruct neg; expose_text; unfold Json.scan_number; cbn -[take_digits digits_value Z.mul];
      rewrite Hfr; cbn -[digits_value Z.mul Z.of_nat]; do 4 f_equal; lia.
  - pose proof Hd as Hin. apply digit_cases in Hin.
    repeat (apply elem_of_cons in Hin as [->|Hin]; [try done|]);
      [..|by apply not_elem_of_nil in Hin].
    all: destruct neg; expose_text; unfold Json.scan_number;
      cbn -[take_digits digits_value Z.mul Z.of_nat];
      rewrite Htail by done; cbn -[take_digits digits_value Z.mul Z.of_nat];
      rewrite Hfr; cbn -[digits_value Z.mul Z.of_nat]; do 4 f_equal; lia.
Qed.

Lemma scan_once_number f c s x :
  c ∈ ["-"; "0"; "1"; "2"; "3"; "4"; "5"; "6"; "7"; "8"; "9"]%char →
  Json.scan_number (String c s) = Some x →
  Json.scan_once (S f) (String c s) = Some x.
Proof.
  intros Hc.
  repeat (apply elem_of_cons in Hc as [->|Hc];
          [cbn -[Json.scan_number]; by intros ->|]).
  by apply not_elem_of_nil in Hc.
Qed.

Lemma digit_or_minus c :
  is_digit c = true →
  c ∈ ["-"; "0"; "1"; "2"; "3"; "4"; "5"; "6"; "7"; "8"; "9"]%char ∧ Json.is_ws c = false.
Proof.
  intros Hc%digit_cases.
  repeat (apply elem_of_cons in Hc as [->|Hc];
          [split; [|done]; repeat (first [apply list_elem_of_here|apply list_elem_of_further])|]).
  by apply not_elem_of_nil in Hc.
Qed.

Lemma loads_seconds_fraction_digits (neg : bool) (ds frac : string) :
  (ds = "0" ∨ ∃ d r, ds = String d r ∧ is_digit d = true ∧ d ≠ "0"%char ∧
                     all_chars is_digit r = true) →
  all_chars is_digit frac = true → frac ≠ "" →
  Json.loads
    (dq "{'seconds': " +:+ ((if neg then "-" else "") +:+ ds +:+ String "." frac) +:+ "}") =
    Ret (PDict [("seconds",
                 PFloat (FDec ((if neg then -1 else 1) * digits_value (digits_value 0 ds) frac)
                              (- Z.of_nat (String.length frac))))]).
Proof.
  intros Hds Hfrac Hne.
  pose proof (scan_number_fraction neg ds frac "" Hds Hfrac Hne) as Hscan.
  destruct neg.
  - rewrite str_app_cons, str_app_nil_l in *.
    apply (loads_seconds_object "-" (ds +:+ String "." frac)); [done|].
    intros f. apply scan_once_number; [apply list_elem_of_here|].
    by rewrite str_app_assoc.
  - rewrite str_app_nil_l in *.
    destruct Hds as [->|(d & r & -> & Hd & Hz & Hr)].
    + apply (loads_seconds_object "0" (String "." frac)); [done|].
      intros f. apply scan_once_number; [|exact Hscan].
      apply list_elem_of_further, list_elem_of_here.
    + destruct (digit_or_minus d Hd) as [Hin Hws].
      apply (loads_seconds_object d (r +:+ String "." frac)); [done|].
      intros f. apply scan_once_number; [done|].
      by rewrite str_app_assoc.
Qed.

Lemma pretty_N_shape (n : N) :
  (pretty n = "0" ∨
   ∃ d r, pretty n = String d r ∧ is_digit d = true ∧ d ≠ "0"%char ∧
          all_chars is_digit r = true) ∧
  digits_value 0 (pretty n) = Z.of_N n ∧
  all_chars is_digit (pretty n) = true.
Proof.
  unfold pretty, pretty_N. destruct (decide (n = 0)%N) as [->|Hn]; [by split; [left|]|].
  split; [right|split; [apply decimal_value|apply decimal_digits]].
  destruct (decimal_head n) as (d & r & E & Hd & Hz); [lia|].
  pose proof (decimal_digits n) as Hr. rewrite E in Hr. cbn [all_chars] in Hr.
  apply andb_true_iff in Hr as [_ Hr]. by exists d, r.
Qed.

(** When the service answers [{"seconds": x}] with a number [x] that has a
    fraction (digits, a point, digits; less than [2 ^ 53] once the point is
    taken out, which 15 digits always are), the value recorded is [x]
    truncated toward zero: its integer part, with its sign.  The fraction is
    dropped without a log entry. *)
Theorem fractional_answer_is_truncated (neg : bool) (n : N) (frac : string) :
  all_chars is_digit frac = true → frac ≠ "" →
  digits_value (Z.of_N n) frac < 2 ^ 53 →
  attempt_value (answer ((if neg then "-" else "") +:+ pretty n +:+ String "." frac)) =
    Ret (if neg then - Z.of_N n else Z.of_N n).
Proof.
  intros Hfrac Hne Hsmall.
  destruct (pretty_N_shape n) as (Hds & Hval & Hdigits).
  destruct (digits_value_shift frac (Z.of_N n) Hfrac) as [Hm Hf].
  assert (Hplain : all_chars json_plain
            ((if neg then "-" else "") +:+ pretty n +:+ String "." frac) = true).
  { assert (Hdig : ∀ s, all_chars is_digit s = true → all_chars json_plain s = true).
    { intros s. apply all_chars_impl. intros c Hc%digit_cases.
      repeat (apply elem_of_cons in Hc as [->|Hc]; [done|]).
      by apply not_elem_of_nil in Hc. }
    rewrite !all_chars_app. cbn [all_chars].
    rewrite (Hdig frac Hfrac), (Hdig _ Hdigits). by destruct neg. }
  rewrite attempt_value_answer by done. unfold parse_seconds.
  rewrite strip_seconds_text, loads_seconds_fraction_digits, Hval by done.
  cbn [res_bind subscript dict_get]. change (String.eqb "seconds" "seconds") with true.
  cbn [res_bind]. unfold py_int, float_to_int.
  pose proof (Z.pow_pos_nonneg 10 (Z.of_nat (String.length frac)) ltac:(lia) ltac:(lia)) as HD.
  rewrite binary64_trunc_small by (destruct neg; lia).
  rewrite Z.opp_involutive. f_equal.
  assert (Hq : digits_value (Z.of_N n) frac ÷ 10 ^ Z.of_nat (String.length frac) = Z.of_N n).
  { rewrite Z.quot_div_nonneg by lia. symmetry.
    apply (Z.div_unique_pos _ _ _ (digits_value 0 frac)); lia. }
  destruct neg.
  - replace (-1 * digits_value (Z.of_N n) frac) with (- digits_value (Z.of_N n) frac) by lia.
    rewrite Z.quot_opp_l by lia. by rewrite Hq.
  - by rewrite Z.mul_1_l.
Qed.

(** [fractional_answer_is_truncated] on the answer [-2.5]. *)
Lemma fractional_answer_minus_2_5 : attempt_value (answer "-2.5") = Ret (-2).
Proof.
  apply (fractional_answer_is_truncated true 2 "5").
  - reflexivity.
  - discriminate.
  - vm_compute. reflexivity.
Defined.
